(** * sntools: event generation for supernova neutrino interactions

    A shallow embedding of [channel.py] (the event generator [main] with its
    nested helpers [dFlux_dE], [ddEventRate], [rejection_sample], [get_eNu],
    [get_direction]) and of the interaction channel
    [sntools/interaction_channels/c12e.py].

    Python floats are read as real numbers; the time of an event is given in
    binary64 as well (module [F64]), where its rounding shows.  The generator
    of the [random]
    module is a stream of draws together with the number of draws consumed so
    far.  Exceptions and the unbounded [while True] loop are made explicit in
    the type [outcome].  The routines of scipy and numpy and the flux module
    ([flux-garching]) are not part of the sources; they are taken as
    parameters. *)

From Stdlib Require Import Reals Lra Lia ZArith List Psatz.
From Stdlib Require String PrimFloat Uint63.
Import ListNotations String.StringSyntax.
Local Open Scope string_scope.
Local Open Scope R_scope.

(** ** Python run-time model *)

Module Py.

(** The exceptions that the modelled code can meet.  [PchipError] stands for
    whatever [scipy.interpolate.pchip] raises from inside its constructor. *)
Inductive error : Type :=
| ZeroDivisionError
| ValueError
| IndexError
| KeyError
| PchipError.

(** Result of running a piece of code: a value, an exception, or a loop that
    is still running when the fuel is used up. *)
Inductive outcome (A : Type) : Type :=
| Done (a : A)
| Raise (e : error)
| OutOfFuel.

Arguments Done {A} a.
Arguments Raise {A} e.
Arguments OutOfFuel {A}.

Definition obind {A B : Type} (c : outcome A) (k : A -> outcome B) : outcome B :=
  match c with
  | Done a => k a
  | Raise e => Raise e
  | OutOfFuel => OutOfFuel
  end.

(** Code that calls [random.random()]: the state is the number of draws
    already taken from the stream. *)
Definition Rand (A : Type) : Type := nat -> outcome (A * nat).

Definition ret {A : Type} (a : A) : Rand A := fun pos => Done (a, pos).

Definition bind {A B : Type} (c : Rand A) (k : A -> Rand B) : Rand B :=
  fun pos =>
    match c pos with
    | Done (a, pos') => k a pos'
    | Raise e => Raise e
    | OutOfFuel => OutOfFuel
    end.

Definition lift {A : Type} (c : outcome A) : Rand A :=
  fun pos => obind c (fun a => Done (a, pos)).

(** [random.random()]: the next draw of the stream. *)
Definition random (draws : nat -> R) : Rand R :=
  fun pos => Done (draws pos, S pos).

(** [range(start, stop, step)] for a positive [step]. *)
Definition range (start stop step : Z) : list Z :=
  map (fun k => (start + step * Z.of_nat k)%Z)
      (seq 0 (Z.to_nat ((stop - start + step - 1) / step))).

(** [int(x)] on a float: truncation towards zero. *)
Definition int (x : R) : Z :=
  if Rle_dec 0 x then Int_part x else (- Int_part (- x))%Z.

(** [float(x) / n] for an integer [n]. *)
Definition fdiv (x : R) (n : Z) : outcome R :=
  if (n =? 0)%Z then Raise ZeroDivisionError else Done (x / IZR n).

(** [l[i]]: negative indices count from the end. *)
Definition index {A : Type} (l : list A) (i : Z) : outcome A :=
  let k := if (i <? 0)%Z then (Z.of_nat (List.length l) + i)%Z else i in
  if (k <? 0)%Z then Raise IndexError
  else match nth_error l (Z.to_nat k) with
       | Some a => Done a
       | None => Raise IndexError
       end.

(** [math.acos]: a domain error outside [-1, 1]. *)
Definition acos (x : R) : outcome R :=
  if Rle_dec (Rabs x) 1 then Done (Ratan.acos x) else Raise ValueError.

End Py.

Import Py.

Notation "x <- c ;; k" := (Py.bind c (fun x => k))
  (at level 61, c at next level, right associativity).
Notation "' pat <- c ;; k" := (Py.bind c (fun x => match x with pat => k end))
  (at level 61, pat pattern, c at next level, right associativity).
Notation "x <-- c ;; k" := (Py.obind c (fun x => k))
  (at level 61, c at next level, right associativity).

(** ** The interface of an interaction channel

    The attributes that [main] fetches from the channel module with
    [getattr]. *)

Record Channel : Type := {
  dSigma_dE : R -> R -> R;
  get_eE : R -> R -> R;
  dSigma_dCosT : R -> R -> R;
  bounds_eE : R -> R * R;
  bounds_eNu : R * R;
  targets_per_molecule : R;
  pid : Z
}.

(** ** c12e.py: nu_e + 12C -> X + e-

    [generate_event] builds an [Event] of [sntools.event], which is not in
    the sources and which [channel.py] does not use; it is left out, and so
    is the list [possible_flavors]. *)

Module C12e.

Definition e_thr : R := 17.338.
Definition epsilon : R := 0.001.

Definition bounds_eNu : R * R := (e_thr + 0.8, 100).

(** [def get_eE(eNu, cosT=0)] *)
Definition get_eE (eNu cosT : R) : R := eNu - e_thr.

Definition bounds_eE (eNu : R) : R * R :=
  (get_eE eNu 0 - epsilon, get_eE eNu 0 + epsilon).

Definition sigma0 : R := 3.439e-44 * (5.067731e10) ^ 2.
Definition a1 : R := 10.164.
Definition a2 : R := -0.4666.
Definition a3 : R := 0.0546.

Definition dSigma_dE (eNu eE : R) : R :=
  if Rgt_dec (Rabs (get_eE eNu 0 - eE)) epsilon then 0
  else
    let sigma :=
      sigma0 * (a1 * (eNu - e_thr) + a2 * (eNu - e_thr) ^ 2
                + a3 * (eNu - e_thr) ^ 3) in
    sigma / (2 * epsilon).

Definition dSigma_dCosT (eNu cosT : R) : R :=
  if Rgt_dec (Rabs cosT) 1 then 0 else 0.5.

Definition _bounds_eNu (eE : R) : R * R :=
  (eE + e_thr - epsilon, eE + e_thr + epsilon).

(** The module as [main] sees it.  c12e.py does not define
    [targets_per_molecule] and [pid]; they are parameters here. *)
Definition channel (targets_per_molecule : R) (pid : Z) : Channel :=
  Build_Channel dSigma_dE get_eE dSigma_dCosT bounds_eE bounds_eNu
                targets_per_molecule pid.

End C12e.

(** ** The collaborators that are not in the sources *)

(** flux-garching: [parse_input] and [nu_emission].  ([prepare_evt_gen] only
    lets the flux module fill a cache and is left out.) *)
Record FluxModule : Type := {
  parse_input : String.string -> option R -> option R -> R * R * list R;
  nu_emission : R -> R -> R
}.

(** scipy and numpy.
    - [nquad f bounds_inner bounds_outer] is
      [integrate.nquad(f, [bounds_inner, bounds_outer])[0]];
    - [quad f a b] is [integrate.quad(f, a, b)[0]];
    - [pchip xs ys] builds the interpolant or raises ([None]); the
      interpolant is applied to a list of abscissae elementwise;
    - [poisson lams] is [np.random.poisson(lams)]. *)
Record Numerics : Type := {
  nquad : (R -> R -> R) -> (R -> R * R) -> R * R -> R;
  quad : (R -> R) -> R -> R -> R;
  pchip : list R -> list R -> option (R -> R);
  poisson : list R -> list nat
}.

(** ** channel.py *)

(** One record of the output file: [t, pid, energy, dirx, diry, dirz]. *)
Record line : Type := {
  line_t : R;
  line_pid : Z;
  line_ene : R;
  line_dirx : R;
  line_diry : R;
  line_dirz : R
}.

(** [detectors[detector]] *)
Definition detectors (detector : String.string) : outcome R :=
  if String.eqb detector "SuperK" then Done 32.5
  else if String.eqb detector "HyperK" then Done 220
  else Raise KeyError.

Definition dSquared : R := (1.563738e+33) ^ 2.
Definition molecules_per_kt : R := 3.343e+31.
Definition bin_width : R := 1.

(** [n_bins = int(duration/bin_width)] *)
Definition n_bins (duration : R) : Z := Py.int (duration / bin_width).

(** [binned_t = [starttime + (i+0.5)*bin_width for i in range(n_bins)]] *)
Definition binned_t (starttime : R) (n : Z) : list R :=
  map (fun i => starttime + (IZR i + 0.5) * bin_width) (Py.range 0 n 1).

(** [boundsMin] and [boundsMax] of bin [i]. *)
Definition boundsMin (starttime : R) (i : Z) : R := starttime + IZR i * bin_width.
Definition boundsMax (starttime : R) (i : Z) : R := starttime + (IZR i + 1) * bin_width.

Section Generator.

Variable ch : Channel.
Variable flux : FluxModule.
Variable num : Numerics.
Variable draws : nat -> R.
Variable normalization : R.

Definition dFlux_dE (eNu time : R) : R :=
  let emission := nu_emission flux eNu time in
  1 / (4 * PI * dSquared) * emission * normalization.

Definition ddEventRate (eE eNu time : R) : R :=
  dSigma_dE ch eNu eE * dFlux_dE eNu time.

(** The expression [min_val + bin_width * (j + 0.5)] of both scans. *)
Definition cell_center (min_val width : R) (j : Z) : R :=
  min_val + width * (IZR j + 0.5).

(** First [for] loop of [rejection_sample], from [p_max = 0], [j_max = 0]. *)
Definition coarse_step (dist : R -> R) (min_val width : R)
           (acc : R * Z) (j : Z) : R * Z :=
  let val := cell_center min_val width j in
  let p := dist val in
  if Rgt_dec p (fst acc) then (p, j) else acc.

Definition coarse_scan (dist : R -> R) (min_val width : R) (n : Z) : R * Z :=
  fold_left (coarse_step dist min_val width) (Py.range 0 n 10) (0, 0%Z).

(** Second [for] loop. *)
Definition fine_step (dist : R -> R) (min_val width : R)
           (p_max : R) (j : Z) : R :=
  let val := cell_center min_val width j in
  let p := dist val in
  if Rgt_dec p p_max then p else p_max.

Definition fine_scan (dist : R -> R) (min_val width : R) (n : Z)
           (acc : R * Z) : R :=
  let (p_max, j_max) := acc in
  fold_left (fine_step dist min_val width)
            (Py.range (Z.max (j_max - 9) 0) (Z.min (j_max + 10) n) 1) p_max.

(** The [while True] loop; one unit of fuel per iteration. *)
Fixpoint accept_loop (fuel : nat) (dist : R -> R) (min_val max_val p_max : R)
  : Rand R :=
  match fuel with
  | O => fun _ => OutOfFuel
  | S fuel' =>
      r1 <- random draws ;;
      let val := min_val + (max_val - min_val) * r1 in
      r2 <- random draws ;;
      if Rlt_dec (p_max * r2) (dist val) then ret val
      else accept_loop fuel' dist min_val max_val p_max
  end.

Definition rejection_sample (dist : R -> R) (min_val max_val : R) (n : Z)
           (fuel : nat) : Rand R :=
  width <- lift (Py.fdiv (max_val - min_val) n) ;;
  let acc := coarse_scan dist min_val width n in
  let p_max := fine_scan dist min_val width n acc in
  accept_loop fuel dist min_val max_val p_max.

Definition get_eNu (time : R) (fuel : nat) : Rand R :=
  let dist := fun _eNu =>
    quad num (fun eE => ddEventRate eE _eNu time)
         (fst (bounds_eE ch _eNu)) (snd (bounds_eE ch _eNu)) in
  rejection_sample dist (fst (bounds_eNu ch)) (snd (bounds_eNu ch)) 200 fuel.

Definition get_direction (eNu : R) (fuel : nat) : Rand (R * R * R) :=
  let dist := fun x => dSigma_dCosT ch eNu x in
  cosT <- rejection_sample dist (-1) 1 200 fuel ;;
  theta <- lift (Py.acos cosT) ;;
  let sinT := sin theta in
  r <- random draws ;;
  let phi := 2 * PI * r in
  ret (sinT * cos phi, sinT * sin phi, cosT).

(** [for _ in range(binned_nevt[i])]: the records are appended to
    [outfile]. *)
Fixpoint gen_events (count : nat) (starttime : R) (i : Z) (times : list R)
         (fuel : nat) (outfile : list line) : Rand (list line) :=
  match count with
  | O => ret outfile
  | S count' =>
      r <- random draws ;;
      let t := boundsMin starttime i + r * bin_width in
      time <- lift (Py.index times i) ;;
      eNu <- get_eNu time fuel ;;
      '(dirx, diry, dirz) <- get_direction eNu fuel ;;
      let ene := get_eE ch eNu dirz in
      gen_events count' starttime i times fuel
        (outfile ++ [ {| line_t := t; line_pid := pid ch; line_ene := ene;
                         line_dirx := dirx; line_diry := diry;
                         line_dirz := dirz |} ])
  end.

(** [for i in range(n_bins)] *)
Fixpoint gen_bins (bins : list Z) (starttime : R) (times : list R)
         (binned_nevt : list nat) (fuel : nat) (outfile : list line)
  : Rand (list line) :=
  match bins with
  | [] => ret outfile
  | i :: bins' =>
      count <- lift (Py.index binned_nevt i) ;;
      outfile' <- gen_events count starttime i times fuel outfile ;;
      gen_bins bins' starttime times binned_nevt fuel outfile'
  end.

(** Event generation section of [main], from the line [bin_width = 1] on.
    The result is the content of the output file and the number that the
    closing [print] reports. *)
Definition event_generation (starttime endtime : R)
           (interpolatedNevt : R -> R) (fuel : nat)
  : outcome (list line * nat) :=
  let duration := endtime - starttime in
  let n := n_bins duration in
  let times := binned_t starttime n in
  let binned_nevt_th := map interpolatedNevt times in
  let binned_nevt := poisson num binned_nevt_th in
  res <-- gen_bins (Py.range 0 n 1) starttime times binned_nevt fuel [] O ;;
  Done (fst res, list_sum binned_nevt).

(** Preparation section: the rate at each raw time. *)
Definition raw_nevts (n_targets : R) (raw_times : list R) : list R :=
  map (fun t =>
         n_targets * nquad num (fun eE eNu => ddEventRate eE eNu t)
                           (bounds_eE ch) (bounds_eNu ch))
      raw_times.

Definition main (input : String.string) (detector : String.string)
           (starttime endtime : option R) (fuel : nat)
  : outcome (list line * nat) :=
  let '(starttime, endtime, raw_times) :=
    parse_input flux input starttime endtime in
  mass <-- detectors detector ;;
  let n_targets := targets_per_molecule ch * molecules_per_kt * mass in
  let nevts := raw_nevts n_targets raw_times in
  match pchip num raw_times nevts with
  | None => Raise PchipError
  | Some interpolatedNevt =>
      event_generation starttime endtime interpolatedNevt fuel
  end.

End Generator.

(** ** The rejection sampler as the specification words it

    Section 4.4 of the specification: the cells of the partition, the coarse
    pass over every 10th cell, the fine pass over the cells within 9 of the
    coarse maximum, and the accept loop. *)

Module Spec.

(** The indices of the [n] cells of the partition. *)
Definition cells (n : Z) : list Z := map Z.of_nat (seq 0 (Z.to_nat n)).

(** Centre of cell [k] when [[min_val, max_val]] is cut into [n] cells of
    equal width. *)
Definition center (min_val max_val : R) (n k : Z) : R :=
  min_val + (IZR k + 1 / 2) * ((max_val - min_val) / IZR n).

Definition every_10th (n : Z) : list Z :=
  filter (fun j => (j mod 10 =? 0)%Z) (cells n).

Definition within_9 (n j0 : Z) : list Z :=
  filter (fun j => (Z.abs (j - j0) <=? 9)%Z) (cells n).

(** Maximum seen so far, with the cell where it was seen. *)
Definition better (f : Z -> R) (best : R * Z) (j : Z) : R * Z :=
  if Rlt_dec (fst best) (f j) then (f j, j) else best.

Definition track_max (f : Z -> R) (js : list Z) : option (R * Z) :=
  match js with
  | [] => None
  | j :: js' => Some (fold_left (better f) js' (f j, j))
  end.

Definition max_estimate (dist : R -> R) (min_val max_val : R) (n : Z)
  : option R :=
  let f := fun k => dist (center min_val max_val n k) in
  match track_max f (every_10th n) with
  | None => None
  | Some (p, j) => Some (fold_left Rmax (map f (within_9 n j)) p)
  end.

(** Attempt [k] of the loop that starts after [pos] draws: the candidate
    and the comparison value. *)
Definition candidate (draws : nat -> R) (min_val max_val : R)
           (pos k : nat) : R :=
  min_val + (max_val - min_val) * draws (pos + 2 * k)%nat.

Definition threshold (draws : nat -> R) (max_est : R) (pos k : nat) : R :=
  max_est * draws (pos + 2 * k + 1)%nat.

Definition accepted (draws : nat -> R) (dist : R -> R)
           (min_val max_val max_est : R) (pos k : nat) : bool :=
  if Rlt_dec (threshold draws max_est pos k)
             (dist (candidate draws min_val max_val pos k))
  then true else false.

(** The first accepted attempt among the first [fuel] ones. *)
Definition first_accepted (draws : nat -> R) (dist : R -> R)
           (min_val max_val max_est : R) (pos fuel : nat) : option nat :=
  find (accepted draws dist min_val max_val max_est pos) (seq 0 fuel).

Definition accept (draws : nat -> R) (dist : R -> R)
           (min_val max_val max_est : R) (fuel : nat) : Rand R :=
  fun pos =>
    match first_accepted draws dist min_val max_val max_est pos fuel with
    | Some k =>
        Done (candidate draws min_val max_val pos k, (pos + 2 * (k + 1))%nat)
    | None => OutOfFuel
    end.

End Spec.

(** ** Vocabulary of the statements *)

(** [random.random()] returns a float of [[0, 1)]. *)
Definition unit_draws (draws : nat -> R) : Prop :=
  forall k : nat, 0 <= draws k < 1.

(** [np.random.poisson] returns an array of the shape of its argument. *)
Definition keeps_shape (num : Numerics) : Prop :=
  forall lams : list R, List.length (poisson num lams) = List.length lams.

(** Euclidean norm of a direction. *)
Definition norm3 (v : R * R * R) : R :=
  let '(x, y, z) := v in sqrt (x * x + y * y + z * z).

(** The time of a record of bin [i] is [boundsMin] plus a draw times the bin
    width. *)
Definition drawn_in_bin (draws : nat -> R) (starttime : R) (i : Z) (l : line)
  : Prop :=
  exists k : nat, line_t l = boundsMin starttime i + draws k * bin_width.

(** The time of a record lies between [boundsMin] of bin [i] and
    [boundsMin + bin_width]. *)
Definition in_bin_closed (starttime : R) (i : Z) (l : line) : Prop :=
  boundsMin starttime i <= line_t l <= boundsMin starttime i + bin_width.

(** [binned_nevt] of [main]: the sampled count of every bin. *)
Definition binned_nevt (num : Numerics) (starttime endtime : R)
           (interpolatedNevt : R -> R) : list nat :=
  poisson num
    (map interpolatedNevt (binned_t starttime (n_bins (endtime - starttime)))).

(** ** The time of an event in binary64

    Lines 148, 149 and 160 of channel.py in the arithmetic of the program:
    [i], [i + 1] and [bin_width = 1] are integers, their products are
    converted to a float when they meet the float [starttime] or the draw
    [r], and every sum and product of floats is rounded to binary64. *)

Module F64.

Import PrimFloat.

Definition of_int (i : Z) : float := of_uint63 (Uint63.of_Z i).

Definition boundsMin (starttime : float) (i : Z) : float :=
  (starttime + of_int (i * 1))%float.

Definition boundsMax (starttime : float) (i : Z) : float :=
  (starttime + of_int ((i + 1) * 1))%float.

Definition event_time (starttime : float) (i : Z) (r : float) : float :=
  (boundsMin starttime i + r * of_int 1)%float.

Definition zero : float := 0%float.
Definition one : float := 1%float.

(** The largest float below 1, [1 - 2^-53]. *)
Definition below_one : float := 0x1.fffffffffffffp-1%float.

End F64.

(** The same sum under an arbitrary rounding [rnd] of the reals. *)
Definition rounded_event_time (rnd : R -> R) (bmin r : R) : R :=
  rnd (bmin + rnd (r * bin_width)).

(** [interpolate.pchip] raises on fewer than 2 samples.  scipy is not in the
    sources; this is what section 4.2 of the specification says of the
    interpolation ("Fails if fewer than 2 samples are provided"). *)
Definition rejects_short_series (num : Numerics) : Prop :=
  forall xs ys : list R, (List.length xs < 2)%nat -> pchip num xs ys = None.

(** ** A small installation on which the statements are exercised

    A flux module that reports a fixed time window and a constant emission,
    quadrature routines that return 1, an interpolant that is constantly 2,
    two events in every bin, and a generator whose draws are all 1/2.  The
    strict [pchip] rejects fewer than two samples, as scipy does; the lenient
    one accepts any series. *)

Module Demo.

Definition draws : nat -> R := fun _ => 1 / 2.

Definition flux (starttime endtime : R) (raw_times : list R) : FluxModule :=
  {| parse_input := fun _ _ _ => (starttime, endtime, raw_times);
     nu_emission := fun _ _ => 1 |}.

Definition numerics (strict : bool) : Numerics :=
  {| nquad := fun _ _ _ => 1;
     quad := fun _ _ _ => 1;
     pchip := fun xs _ =>
                if (strict && (List.length xs <? 2)%nat)%bool then None
                else Some (fun _ => 2);
     poisson := map (fun _ => 2%nat) |}.

Definition c12e : Channel := C12e.channel 1 11.

(** A density that is 1 at the centre of cell 15 of the partition of
    [[0, 25]] into 25 cells and 0 elsewhere. *)
Definition spike (x : R) : R := if Req_dec_T x 15.5 then 1 else 0.

End Demo.

(** ** Vocabulary of the further statements *)

(** The local [sigma] of [dSigma_dE] in c12e.py: the total cross section at
    the neutrino energy [eNu]. *)
Definition c12e_sigma (eNu : R) : R :=
  C12e.sigma0 * (C12e.a1 * (eNu - C12e.e_thr)
                 + C12e.a2 * (eNu - C12e.e_thr) ^ 2
                 + C12e.a3 * (eNu - C12e.e_thr) ^ 3).

(** A value lies between the two components of a pair of bounds. *)
Definition within (bounds : R * R) (x : R) : Prop :=
  fst bounds <= x <= snd bounds.

(** The record [l] is one that the body of the inner loop of [main] writes
    for bin [i]: the time comes from the draw at [pos], the neutrino energy
    from [get_eNu] at the centre of the bin, the direction from
    [get_direction], and the energy from [get_eE]. *)
Definition generated (ch : Channel) (flux : FluxModule) (num : Numerics)
           (draws : nat -> R) (normalization : R) (times : list R)
           (fuel : nat) (starttime : R) (i : Z) (l : line) : Prop :=
  exists (pos : nat) (time eNu : R) (pos1 : nat) (dirx diry dirz : R)
         (pos2 : nat),
    Py.index times i = Done time
    /\ get_eNu ch flux num draws normalization time fuel (S pos)
       = Done (eNu, pos1)
    /\ get_direction ch draws eNu fuel pos1 = Done ((dirx, diry, dirz), pos2)
    /\ l = {| line_t := boundsMin starttime i + draws pos * bin_width;
              line_pid := pid ch;
              line_ene := get_eE ch eNu dirz;
              line_dirx := dirx; line_diry := diry; line_dirz := dirz |}.

(** The values of the density at the centres of the cells rise strictly up
    to cell [m] and fall strictly after it. *)
Definition unimodal_cells (f : Z -> R) (n m : Z) : Prop :=
  (0 <= m < n)%Z
  /\ (forall i j, (0 <= i < j)%Z -> (j <= m)%Z -> f i < f j)
  /\ (forall i j, (m <= i < j)%Z -> (j < n)%Z -> f j < f i).

(** * Properties *)

(** ** The c12e channel *)

Section C12eFacts.

Import C12e.

Lemma epsilon_pos : 0 < epsilon.
Proof. unfold epsilon. lra. Qed.

Lemma sigma0_pos : 0 < sigma0.
Proof. unfold sigma0. lra. Qed.

(** The fitted power series is non-negative from the threshold on: its
    quadratic factor has a negative discriminant. *)
Lemma cubic_nonneg (x : R) :
  0 <= x -> 0 <= a1 * x + a2 * x ^ 2 + a3 * x ^ 3.
Proof.
  intros Hx. unfold a1, a2, a3.
  assert (Hq : 0 < 10.164 + -0.4666 * x + 0.0546 * (x * x)).
  { assert (Hs := pow2_ge_0 (x - 4)). nra. }
  replace (10.164 * x + -0.4666 * x ^ 2 + 0.0546 * x ^ 3)
    with (x * (10.164 + -0.4666 * x + 0.0546 * (x * x))) by ring.
  apply Rmult_le_pos; lra.
Qed.

Lemma dSigma_dE_outside (eNu eE : R) :
  Rabs (eE - (eNu - e_thr)) > epsilon -> C12e.dSigma_dE eNu eE = 0.
Proof.
  intros H. unfold C12e.dSigma_dE, C12e.get_eE.
  destruct (Rgt_dec (Rabs (eNu - e_thr - eE)) epsilon) as [_ | Hn].
  - reflexivity.
  - exfalso. apply Hn. rewrite Rabs_minus_sym. exact H.
Qed.

Lemma dSigma_dE_ge_0 (eNu eE : R) :
  e_thr <= eNu -> 0 <= C12e.dSigma_dE eNu eE.
Proof.
  intros H. unfold C12e.dSigma_dE.
  destruct (Rgt_dec (Rabs (C12e.get_eE eNu 0 - eE)) epsilon) as [_ | _].
  - lra.
  - cbv zeta. apply Rmult_le_pos.
    + apply Rmult_le_pos.
      * left. exact sigma0_pos.
      * apply cubic_nonneg. lra.
    + left. apply Rinv_0_lt_compat. pose proof epsilon_pos. lra.
Qed.

End C12eFacts.

(** ** [range] *)

Section RangeFacts.

Lemma range_unit (a b : Z) :
  Py.range a b 1 = map (fun k => (a + Z.of_nat k)%Z) (seq 0 (Z.to_nat (b - a))).
Proof.
  unfold Py.range.
  replace ((b - a + 1 - 1) / 1)%Z with (b - a)%Z
    by (rewrite Z.div_1_r; lia).
  apply map_ext. intros k. lia.
Qed.

Lemma range_cells (n : Z) : Py.range 0 n 1 = Spec.cells n.
Proof.
  rewrite range_unit. unfold Spec.cells.
  replace (n - 0)%Z with n by lia.
  apply map_ext. intros k. lia.
Qed.

Lemma range_length (n : Z) : List.length (Py.range 0 n 1) = Z.to_nat n.
Proof.
  rewrite range_cells. unfold Spec.cells.
  now rewrite length_map, length_seq.
Qed.

Lemma in_range_unit (a b j : Z) :
  In j (Py.range a b 1) <-> (a <= j < b)%Z.
Proof.
  rewrite range_unit, in_map_iff. split.
  - intros (k & <- & Hk). apply in_seq in Hk. lia.
  - intros H. exists (Z.to_nat (j - a)). split; [lia |].
    apply in_seq. lia.
Qed.

Lemma in_range_10 (n j : Z) :
  In j (Py.range 0 n 10) -> (0 <= j < n)%Z.
Proof.
  unfold Py.range. rewrite in_map_iff.
  intros (k & <- & Hk). apply in_seq in Hk.
  assert (H : (Z.of_nat k < (n - 0 + 10 - 1) / 10)%Z) by lia.
  clear Hk. Z.div_mod_to_equations. lia.
Qed.

Lemma range_10_head (n : Z) :
  (0 < n)%Z -> exists js, Py.range 0 n 10 = 0%Z :: js.
Proof.
  intros Hn. unfold Py.range.
  destruct (Z.to_nat ((n - 0 + 10 - 1) / 10)) as [| c] eqn:Hc.
  - exfalso. assert (H : ((n - 0 + 10 - 1) / 10 <= 0)%Z) by lia.
    clear Hc. Z.div_mod_to_equations. lia.
  - cbn [seq map]. eexists. reflexivity.
Qed.

(** Every 10th cell of the partition is what [range(0, n_bins, 10)]
    enumerates. *)
Lemma every_10th_range_nat (m : nat) :
  filter (fun j => (j mod 10 =? 0)%Z) (map Z.of_nat (seq 0 m))
  = Py.range 0 (Z.of_nat m) 10.
Proof.
  unfold Py.range. induction m as [| m IH].
  - reflexivity.
  - rewrite seq_S, map_app, filter_app, IH. cbn [Nat.add map filter].
    destruct (Z.of_nat m mod 10 =? 0)%Z eqn:Hm.
    + apply Z.eqb_eq in Hm.
      replace (Z.to_nat ((Z.of_nat (S m) - 0 + 10 - 1) / 10))
        with (S (Z.to_nat ((Z.of_nat m - 0 + 10 - 1) / 10)))
        by (Z.div_mod_to_equations; lia).
      rewrite seq_S, map_app. cbn [Nat.add map]. f_equal. f_equal.
      Z.div_mod_to_equations. lia.
    + apply Z.eqb_neq in Hm. rewrite app_nil_r. f_equal. f_equal.
      Z.div_mod_to_equations. lia.
Qed.

Lemma every_10th_range (n : Z) : Spec.every_10th n = Py.range 0 n 10.
Proof.
  unfold Spec.every_10th, Spec.cells. rewrite every_10th_range_nat.
  destruct (Z_le_gt_dec 0 n) as [H | H].
  - now rewrite Z2Nat.id.
  - unfold Py.range.
    replace (Z.to_nat n) with 0%nat by lia.
    replace (Z.to_nat ((n - 0 + 10 - 1) / 10)) with 0%nat
      by (Z.div_mod_to_equations; lia).
    reflexivity.
Qed.

(** The cells within 9 of [j0] are what
    [range(max(j0-9, 0), min(j0+10, n_bins))] enumerates. *)
Lemma within_9_range_nat (m : nat) (j0 : Z) :
  filter (fun j => (Z.abs (j - j0) <=? 9)%Z) (map Z.of_nat (seq 0 m))
  = Py.range (Z.max (j0 - 9) 0) (Z.min (j0 + 10) (Z.of_nat m)) 1.
Proof.
  rewrite range_unit. induction m as [| m IH].
  - cbn. replace (Z.to_nat (Z.min (j0 + 10) 0 - Z.max (j0 - 9) 0)) with 0%nat
      by lia. reflexivity.
  - rewrite seq_S, map_app, filter_app, IH. cbn [Nat.add map filter].
    destruct (Z.abs (Z.of_nat m - j0) <=? 9)%Z eqn:Hm.
    + apply Z.leb_le in Hm.
      replace (Z.to_nat (Z.min (j0 + 10) (Z.of_nat (S m)) - Z.max (j0 - 9) 0))
        with (S (Z.to_nat (Z.min (j0 + 10) (Z.of_nat m) - Z.max (j0 - 9) 0)))
        by lia.
      rewrite seq_S, map_app. cbn [Nat.add map]. f_equal. f_equal. lia.
    + apply Z.leb_gt in Hm. rewrite app_nil_r. f_equal. f_equal. lia.
Qed.

Lemma within_9_range (n j0 : Z) :
  Spec.within_9 n j0 = Py.range (Z.max (j0 - 9) 0) (Z.min (j0 + 10) n) 1.
Proof.
  unfold Spec.within_9, Spec.cells. rewrite within_9_range_nat.
  destruct (Z_le_gt_dec 0 n) as [H | H].
  - now rewrite Z2Nat.id.
  - rewrite !range_unit.
    replace (Z.to_nat (Z.min (j0 + 10) (Z.of_nat (Z.to_nat n)) - Z.max (j0 - 9) 0))
      with 0%nat by lia.
    replace (Z.to_nat (Z.min (j0 + 10) n - Z.max (j0 - 9) 0)) with 0%nat by lia.
    reflexivity.
Qed.

End RangeFacts.

(** ** The two scans of [rejection_sample] *)

Section ScanFacts.

Variable dist : R -> R.
Variables min_val width : R.

Let f (j : Z) : R := dist (cell_center min_val width j).

Lemma coarse_step_better (acc : R * Z) (j : Z) :
  coarse_step dist min_val width acc j = Spec.better f acc j.
Proof.
  unfold coarse_step, Spec.better, f. cbv zeta.
  destruct (Rgt_dec (dist (cell_center min_val width j)) (fst acc)) as [H | H];
    destruct (Rlt_dec (fst acc) (dist (cell_center min_val width j))) as [H' | H'];
    try reflexivity; unfold Rgt in H; contradiction.
Qed.

Lemma coarse_fold_better (js : list Z) (acc : R * Z) :
  fold_left (coarse_step dist min_val width) js acc
  = fold_left (Spec.better f) js acc.
Proof.
  revert acc. induction js as [| j js IH]; intros acc; cbn.
  - reflexivity.
  - now rewrite coarse_step_better, IH.
Qed.

Lemma fine_step_Rmax (p : R) (j : Z) :
  fine_step dist min_val width p j = Rmax p (f j).
Proof.
  unfold fine_step, Rmax, f. cbv zeta.
  destruct (Rgt_dec (dist (cell_center min_val width j)) p) as [H | H];
    destruct (Rle_dec p (dist (cell_center min_val width j))) as [H' | H'];
    unfold Rgt in *; lra.
Qed.

Lemma fine_fold_Rmax (js : list Z) (p : R) :
  fold_left (fine_step dist min_val width) js p
  = fold_left Rmax (map f js) p.
Proof.
  revert p. induction js as [| j js IH]; intros p; cbn.
  - reflexivity.
  - now rewrite fine_step_Rmax, IH.
Qed.

(** A scan over cells none of which exceeds the running maximum leaves it
    as it is. *)
Lemma coarse_fold_stable (js : list Z) (acc : R * Z) :
  (forall j, In j js -> f j <= fst acc) ->
  fold_left (coarse_step dist min_val width) js acc = acc.
Proof.
  induction js as [| j js IH]; intros H; cbn.
  - reflexivity.
  - assert (Hj : f j <= fst acc) by (apply H; now left).
    unfold coarse_step at 2. cbv zeta. fold (f j).
    destruct (Rgt_dec (f j) (fst acc)) as [Hgt | _].
    + unfold Rgt in Hgt. lra.
    + apply IH. intros k Hk. apply H. now right.
Qed.

Lemma fine_fold_stable (js : list Z) (p : R) :
  (forall j, In j js -> f j <= p) ->
  fold_left (fine_step dist min_val width) js p = p.
Proof.
  induction js as [| j js IH]; intros H; cbn.
  - reflexivity.
  - assert (Hj : f j <= p) by (apply H; now left).
    unfold fine_step at 2. cbv zeta. fold (f j).
    destruct (Rgt_dec (f j) p) as [Hgt | _].
    + unfold Rgt in Hgt. lra.
    + apply IH. intros k Hk. apply H. now right.
Qed.

End ScanFacts.

(** The centres of the cells lie in the sampled interval. *)
Lemma cell_center_in_range (min_val max_val : R) (n j : Z) :
  min_val <= max_val -> (0 <= j < n)%Z ->
  min_val <= cell_center min_val ((max_val - min_val) / IZR n) j <= max_val.
Proof.
  intros Hmm [Hj0 Hjn]. unfold cell_center.
  assert (Hn : 0 < IZR n) by (apply IZR_lt; lia).
  assert (Hj : 0 <= IZR j) by (apply IZR_le; lia).
  assert (Hj' : IZR j + 1 <= IZR n).
  { rewrite <- plus_IZR. apply IZR_le. lia. }
  set (w := (max_val - min_val) / IZR n).
  assert (Hw : 0 <= w).
  { unfold w. apply Rmult_le_pos; [lra |]. left. now apply Rinv_0_lt_compat. }
  assert (Hnw : IZR n * w = max_val - min_val).
  { unfold w. field. lra. }
  split; nra.
Qed.

Lemma cell_center_spec (min_val max_val : R) (n j : Z) :
  cell_center min_val ((max_val - min_val) / IZR n) j
  = Spec.center min_val max_val n j.
Proof. unfold cell_center, Spec.center. lra. Qed.

(** ** The accept loop and the whole sampler *)

Section SamplerFacts.

Variable draws : nat -> R.
Variable dist : R -> R.
Variables min_val max_val : R.

Lemma candidate_in_range (pos k : nat) :
  unit_draws draws -> min_val <= max_val ->
  min_val <= Spec.candidate draws min_val max_val pos k <= max_val.
Proof.
  intros Hd Hmm. unfold Spec.candidate.
  destruct (Hd (pos + 2 * k)%nat) as [H0 H1]. split; nra.
Qed.

(** The loop, started after [pos + 2 * k0] draws with [fuel] iterations
    left, finds the first accepted attempt from [k0] on. *)
Lemma accept_loop_find (p_max : R) (pos fuel k0 : nat) :
  accept_loop draws fuel dist min_val max_val p_max (pos + 2 * k0)%nat
  = match find (Spec.accepted draws dist min_val max_val p_max pos)
               (seq k0 fuel) with
    | Some k => Done (Spec.candidate draws min_val max_val pos k,
                      (pos + 2 * (k + 1))%nat)
    | None => OutOfFuel
    end.
Proof.
  revert k0. induction fuel as [| fuel IH]; intros k0.
  - reflexivity.
  - cbn [accept_loop seq find]. unfold Py.bind, Py.random.
    unfold Spec.accepted at 1. unfold Spec.threshold, Spec.candidate at 1.
    replace (pos + 2 * k0 + 1)%nat with (S (pos + 2 * k0)) by lia.
    destruct (Rlt_dec (p_max * draws (S (pos + 2 * k0)))
                      (dist (min_val + (max_val - min_val) * draws (pos + 2 * k0)%nat)))
      as [Hacc | Hrej].
    + unfold Py.ret, Spec.candidate. f_equal. f_equal. lia.
    + replace (S (S (pos + 2 * k0))) with (pos + 2 * S k0)%nat by lia.
      apply IH.
Qed.

Lemma accept_loop_spec (p_max : R) (fuel pos : nat) :
  accept_loop draws fuel dist min_val max_val p_max pos
  = Spec.accept draws dist min_val max_val p_max fuel pos.
Proof.
  unfold Spec.accept, Spec.first_accepted.
  rewrite <- accept_loop_find. f_equal. lia.
Qed.

(** What a finished loop has done. *)
Lemma accept_loop_Done (p_max : R) (fuel pos : nat) (val : R) (pos' : nat) :
  accept_loop draws fuel dist min_val max_val p_max pos = Done (val, pos') ->
  exists k : nat,
    (k < fuel)%nat
    /\ val = Spec.candidate draws min_val max_val pos k
    /\ pos' = (pos + 2 * (k + 1))%nat
    /\ Spec.threshold draws p_max pos k < dist val
    /\ forall k', (k' < k)%nat ->
         ~ Spec.threshold draws p_max pos k'
           < dist (Spec.candidate draws min_val max_val pos k').
Proof.
  revert pos. induction fuel as [| fuel IH]; intros pos H.
  - discriminate H.
  - cbn [accept_loop] in H. unfold Py.bind, Py.random in H.
    destruct (Rlt_dec (p_max * draws (S pos))
                      (dist (min_val + (max_val - min_val) * draws pos)))
      as [Hacc | Hrej].
    + unfold Py.ret in H. injection H as <- <-. exists 0%nat.
      unfold Spec.candidate, Spec.threshold.
      replace (pos + 2 * 0)%nat with pos by lia.
      replace (pos + 1)%nat with (S pos) by lia.
      repeat split; try lia; try assumption.
    + apply IH in H. destruct H as (k & Hk & Hv & Hp & Ht & Hfirst).
      exists (S k). unfold Spec.candidate, Spec.threshold in *.
      replace (pos + 2 * S k)%nat with (S (S pos) + 2 * k)%nat by lia.
      repeat split; try lia; try assumption.
      intros k' Hk'. destruct k' as [| k'].
      * replace (pos + 2 * 0 + 1)%nat with (S pos) by lia.
        replace (pos + 2 * 0)%nat with pos by lia. exact Hrej.
      * replace (pos + 2 * S k')%nat with (S (S pos) + 2 * k')%nat by lia.
        apply Hfirst. lia.
Qed.

(** With a zero bound and a density that vanishes on the interval no
    attempt is accepted. *)
Lemma accept_loop_zero (fuel pos : nat) :
  unit_draws draws -> min_val <= max_val ->
  (forall x, min_val <= x <= max_val -> dist x = 0) ->
  accept_loop draws fuel dist min_val max_val 0 pos = OutOfFuel.
Proof.
  intros Hd Hmm Hz. revert pos. induction fuel as [| fuel IH]; intros pos.
  - reflexivity.
  - cbn [accept_loop]. unfold Py.bind, Py.random.
    destruct (Rlt_dec (0 * draws (S pos))
                      (dist (min_val + (max_val - min_val) * draws pos)))
      as [Hacc | _].
    + exfalso. rewrite Hz in Hacc; [lra |].
      destruct (Hd pos) as [H0 H1]. split; nra.
    + apply IH.
Qed.

(** With a flat positive density and its value as bound the first attempt
    is accepted. *)
Lemma accept_loop_flat (c : R) (fuel pos : nat) :
  unit_draws draws -> min_val <= max_val -> 0 < c ->
  (forall x, min_val <= x <= max_val -> dist x = c) ->
  accept_loop draws (S fuel) dist min_val max_val c pos
  = Done (min_val + (max_val - min_val) * draws pos, S (S pos)).
Proof.
  intros Hd Hmm Hc Hflat. cbn [accept_loop]. unfold Py.bind, Py.random.
  destruct (Rlt_dec (c * draws (S pos))
                    (dist (min_val + (max_val - min_val) * draws pos)))
    as [_ | Hrej].
  - reflexivity.
  - exfalso. apply Hrej. rewrite Hflat.
    + destruct (Hd (S pos)) as [H0 H1]. nra.
    + destruct (Hd pos) as [H0 H1]. split; nra.
Qed.

Lemma rejection_sample_unfold (n : Z) (fuel pos : nat) :
  n <> 0%Z ->
  rejection_sample draws dist min_val max_val n fuel pos
  = let width := (max_val - min_val) / IZR n in
    accept_loop draws fuel dist min_val max_val
      (fine_scan dist min_val width n (coarse_scan dist min_val width n)) pos.
Proof.
  intros Hn. unfold rejection_sample, Py.bind, Py.lift, Py.fdiv.
  destruct (n =? 0)%Z eqn:E.
  - apply Z.eqb_eq in E. contradiction.
  - reflexivity.
Qed.

Lemma rejection_sample_zero_bins (fuel pos : nat) :
  rejection_sample draws dist min_val max_val 0 fuel pos
  = Raise ZeroDivisionError.
Proof. reflexivity. Qed.

(** A returned value comes from an accepted attempt and lies in the
    interval. *)
Lemma rejection_sample_in_range (n : Z) (fuel pos : nat) (val : R) (pos' : nat) :
  unit_draws draws -> min_val <= max_val ->
  rejection_sample draws dist min_val max_val n fuel pos = Done (val, pos') ->
  min_val <= val <= max_val.
Proof.
  intros Hd Hmm H.
  destruct (Z.eq_dec n 0) as [-> | Hn].
  - rewrite rejection_sample_zero_bins in H. discriminate H.
  - rewrite rejection_sample_unfold in H by assumption. cbv zeta in H.
    apply accept_loop_Done in H. destruct H as (k & _ & -> & _).
    now apply candidate_in_range.
Qed.

End SamplerFacts.

(** ** The estimate of the maximum *)

Section EstimateFacts.

Variable dist : R -> R.
Variables min_val max_val : R.
Variable n : Z.

Let width : R := (max_val - min_val) / IZR n.

Lemma better_ext (f1 f2 : Z -> R) (js : list Z) (acc : R * Z) :
  (forall j, f1 j = f2 j) ->
  fold_left (Spec.better f1) js acc = fold_left (Spec.better f2) js acc.
Proof.
  intros Hf. revert acc. induction js as [| j js IH]; intros acc; cbn.
  - reflexivity.
  - unfold Spec.better at 2 4. rewrite Hf. apply IH.
Qed.

(** For a density that is non-negative on the interval the two scans
    compute the estimate of the specification. *)
Lemma estimate_spec :
  (0 < n)%Z -> min_val <= max_val ->
  (forall x, min_val <= x <= max_val -> 0 <= dist x) ->
  Spec.max_estimate dist min_val max_val n
  = Some (fine_scan dist min_val width n (coarse_scan dist min_val width n)).
Proof.
  intros Hn Hmm Hpos.
  unfold Spec.max_estimate, coarse_scan.
  rewrite every_10th_range.
  destruct (range_10_head n Hn) as [js ->].
  cbn [Spec.track_max fold_left].
  assert (H0 : coarse_step dist min_val width (0, 0%Z) 0
               = (dist (Spec.center min_val max_val n 0), 0%Z)).
  { unfold coarse_step. cbv zeta. unfold width.
    rewrite cell_center_spec. cbn [fst].
    destruct (Rgt_dec (dist (Spec.center min_val max_val n 0)) 0) as [_ | Hle].
    - reflexivity.
    - f_equal. unfold Rgt in Hle.
      assert (0 <= dist (Spec.center min_val max_val n 0)); [| lra].
      apply Hpos. rewrite <- cell_center_spec.
      apply cell_center_in_range; [assumption | lia]. }
  rewrite H0, coarse_fold_better.
  rewrite (better_ext (fun j => dist (cell_center min_val width j))
                      (fun k => dist (Spec.center min_val max_val n k)))
    by (intros j; unfold width; now rewrite cell_center_spec).
  destruct (fold_left _ js _) as [p j].
  unfold fine_scan. rewrite fine_fold_Rmax, within_9_range.
  f_equal. f_equal. apply map_ext. intros k. unfold width.
  now rewrite cell_center_spec.
Qed.

(** A density that vanishes on the interval leaves the estimate at 0. *)
Lemma estimate_zero :
  min_val <= max_val ->
  (forall x, min_val <= x <= max_val -> dist x = 0) ->
  fine_scan dist min_val width n (coarse_scan dist min_val width n) = 0.
Proof.
  intros Hmm Hz. unfold coarse_scan.
  rewrite coarse_fold_stable.
  - unfold fine_scan. apply fine_fold_stable.
    intros j Hj. apply in_range_unit in Hj.
    rewrite Hz; [lra |]. apply cell_center_in_range; [assumption | lia].
  - intros j Hj. apply in_range_10 in Hj. cbn [fst].
    rewrite Hz; [lra |]. now apply cell_center_in_range.
Qed.

(** A flat positive density is its own estimate. *)
Lemma estimate_flat (c : R) :
  (0 < n)%Z -> min_val <= max_val -> 0 < c ->
  (forall x, min_val <= x <= max_val -> dist x = c) ->
  fine_scan dist min_val width n (coarse_scan dist min_val width n) = c.
Proof.
  intros Hn Hmm Hc Hflat. unfold coarse_scan.
  destruct (range_10_head n Hn) as [js Hjs].
  assert (Hin : forall j, In j js -> (0 <= j < n)%Z).
  { intros j Hj. apply in_range_10. rewrite Hjs. now right. }
  rewrite Hjs. cbn [fold_left].
  assert (H0 : coarse_step dist min_val width (0, 0%Z) 0 = (c, 0%Z)).
  { unfold coarse_step. cbv zeta. cbn [fst].
    rewrite Hflat by (apply cell_center_in_range; [assumption | lia]).
    destruct (Rgt_dec c 0) as [_ | Hle]; [reflexivity |].
    unfold Rgt in Hle. lra. }
  rewrite H0, coarse_fold_stable.
  - unfold fine_scan. apply fine_fold_stable.
    intros j Hj. apply in_range_unit in Hj.
    rewrite Hflat; [lra |]. apply cell_center_in_range; [assumption | lia].
  - intros j Hj. cbn [fst].
    rewrite Hflat; [lra |]. apply cell_center_in_range; auto.
Qed.

End EstimateFacts.

(** With a flat positive density the sampler returns at its first attempt. *)
Lemma rejection_sample_flat (draws : nat -> R) (dist : R -> R)
      (min_val max_val c : R) (n : Z) (fuel pos : nat) :
  unit_draws draws -> (0 < n)%Z -> min_val <= max_val -> 0 < c ->
  (forall x, min_val <= x <= max_val -> dist x = c) ->
  rejection_sample draws dist min_val max_val n (S fuel) pos
  = Done (min_val + (max_val - min_val) * draws pos, S (S pos)).
Proof.
  intros Hd Hn Hmm Hc Hflat.
  rewrite rejection_sample_unfold by lia. cbv zeta.
  rewrite (estimate_flat dist min_val max_val n c) by assumption.
  now apply accept_loop_flat.
Qed.

(** ** Inversion of the monadic steps *)

Lemma bind_Done {A B : Type} (c : Rand A) (k : A -> Rand B)
      (pos : nat) (r : B * nat) :
  Py.bind c k pos = Done r ->
  exists a pos1, c pos = Done (a, pos1) /\ k a pos1 = Done r.
Proof.
  unfold Py.bind. destruct (c pos) as [[a pos1] | e |]; intros H;
    try discriminate H.
  now exists a, pos1.
Qed.

Lemma lift_Done {A : Type} (c : outcome A) (pos : nat) (a : A) (pos' : nat) :
  Py.lift c pos = Done (a, pos') -> c = Done a /\ pos' = pos.
Proof.
  unfold Py.lift, Py.obind. destruct c as [a0 | e |]; intros H;
    try discriminate H.
  injection H as -> ->. now split.
Qed.

Lemma index_of_nat {A : Type} (l : list A) (k : nat) :
  Py.index l (Z.of_nat k)
  = match nth_error l k with Some a => Done a | None => Raise IndexError end.
Proof.
  unfold Py.index. cbv zeta.
  assert (E : (Z.of_nat k <? 0)%Z = false) by (apply Z.ltb_ge; lia).
  rewrite !E, Nat2Z.id. reflexivity.
Qed.

Lemma acos_Done (x : R) : -1 <= x <= 1 -> Py.acos x = Done (Ratan.acos x).
Proof.
  intros H. unfold Py.acos.
  destruct (Rle_dec (Rabs x) 1) as [_ | Hn]; [reflexivity |].
  exfalso. apply Hn. apply Rabs_le. lra.
Qed.

(** ** Directions *)

(** The vector that [get_direction] builds from a cosine and an azimuth. *)
Lemma direction_unit (cosT phi : R) :
  -1 <= cosT <= 1 ->
  norm3 (sin (Ratan.acos cosT) * cos phi, sin (Ratan.acos cosT) * sin phi, cosT) = 1.
Proof.
  intros Hc. unfold norm3.
  rewrite sin_acos by assumption.
  assert (Hs : sqrt (1 - cosT²) * sqrt (1 - cosT²) = 1 - cosT²).
  { apply sqrt_sqrt. unfold Rsqr. nra. }
  assert (Ht := sin2_cos2 phi). unfold Rsqr in *.
  replace (sqrt (1 - cosT * cosT) * cos phi * (sqrt (1 - cosT * cosT) * cos phi)
           + sqrt (1 - cosT * cosT) * sin phi * (sqrt (1 - cosT * cosT) * sin phi)
           + cosT * cosT)
    with ((sqrt (1 - cosT * cosT) * sqrt (1 - cosT * cosT))
          * (sin phi * sin phi + cos phi * cos phi) + cosT * cosT) by ring.
  rewrite Hs, Ht.
  replace ((1 - cosT * cosT) * 1 + cosT * cosT) with 1 by ring.
  apply sqrt_1.
Qed.

Section DirectionFacts.

Variable ch : Channel.
Variable draws : nat -> R.

(** What a finished call of [get_direction] has computed. *)
Lemma get_direction_Done (eNu : R) (fuel pos : nat) (v : R * R * R) (pos' : nat) :
  unit_draws draws ->
  get_direction ch draws eNu fuel pos = Done (v, pos') ->
  exists cosT phi,
    -1 <= cosT <= 1 /\ 0 <= phi < 2 * PI
    /\ v = (sin (Ratan.acos cosT) * cos phi,
            sin (Ratan.acos cosT) * sin phi, cosT).
Proof.
  intros Hd H. unfold get_direction in H.
  apply bind_Done in H. destruct H as (cosT & pos1 & Hrs & H).
  apply rejection_sample_in_range in Hrs; [| assumption | lra].
  apply bind_Done in H. destruct H as (theta & pos2 & Hac & H).
  apply lift_Done in Hac. destruct Hac as [Hac ->].
  rewrite acos_Done in Hac by assumption. injection Hac as <-.
  unfold Py.bind, Py.random, Py.ret in H. injection H as <- <-.
  exists cosT, (2 * PI * draws pos1). repeat split; try lra.
  - destruct (Hd pos1) as [H0 _]. pose proof PI_RGT_0. nra.
  - destruct (Hd pos1) as [_ H1]. pose proof PI_RGT_0. nra.
Qed.

(** [get_direction] never raises: the sampler is called with 200 cells and
    its value is a legal argument of [acos]. *)
Lemma get_direction_no_raise (eNu : R) (fuel pos : nat) (e : Py.error) :
  unit_draws draws ->
  get_direction ch draws eNu fuel pos <> Raise e.
Proof.
  intros Hd H. unfold get_direction, Py.bind in H.
  destruct (rejection_sample draws (fun x => dSigma_dCosT ch eNu x) (-1) 1 200 fuel pos)
    as [[cosT pos1] | e' |] eqn:Hrs; try discriminate H.
  - apply rejection_sample_in_range in Hrs; [| assumption | lra].
    unfold Py.lift in H. rewrite acos_Done in H by assumption.
    cbn in H. discriminate H.
  - rewrite rejection_sample_unfold in Hrs by lia. cbv zeta in Hrs.
    rewrite accept_loop_spec in Hrs. unfold Spec.accept in Hrs.
    destruct (Spec.first_accepted _ _ _ _ _ _ _); discriminate Hrs.
Qed.

End DirectionFacts.

(** ** The loops over the bins and over the events of a bin *)

Lemma skipn_nth_error {A : Type} (l : list A) (a : nat) (x : A) :
  nth_error l a = Some x -> skipn a l = x :: skipn (S a) l.
Proof.
  revert l. induction a as [| a IH]; intros [| y l] H; try discriminate H.
  - injection H as ->. reflexivity.
  - cbn in H. apply IH in H. exact H.
Qed.

(** Chunks whose lengths are the entries [a], [a+1], ... of [counts]. *)
Lemma chunk_lengths (counts : list nat) (chunks : list (list line)) (a m : nat) :
  Forall2 (fun k chunk => nth_error counts k = Some (List.length chunk))
          (seq a m) chunks ->
  map (@List.length line) chunks = firstn m (skipn a counts).
Proof.
  revert a chunks. induction m as [| m IH]; intros a chunks H.
  - inversion H. reflexivity.
  - cbn [seq] in H. inversion H as [| k c ks cs Hk Hrest]; subst.
    rewrite (skipn_nth_error _ _ _ Hk). cbn [map firstn]. f_equal.
    now apply IH.
Qed.

Section LoopFacts.

Variable ch : Channel.
Variable flux : FluxModule.
Variable num : Numerics.
Variable draws : nat -> R.
Variable normalization : R.

Lemma gen_events_Done (count : nat) (starttime : R) (i : Z) (times : list R)
      (fuel : nat) (outfile : list line) (pos : nat)
      (outfile' : list line) (pos' : nat) :
  gen_events ch flux num draws normalization count starttime i times fuel
             outfile pos = Done (outfile', pos') ->
  exists chunk,
    outfile' = outfile ++ chunk
    /\ List.length chunk = count
    /\ Forall (drawn_in_bin draws starttime i) chunk.
Proof.
  revert outfile pos. induction count as [| count IH]; intros outfile pos H.
  - cbn in H. injection H as <- <-. exists []. rewrite app_nil_r.
    repeat split. constructor.
  - cbn [gen_events] in H.
    apply bind_Done in H. destruct H as (r & pos1 & Hr & H).
    unfold Py.random in Hr. injection Hr as <- <-.
    apply bind_Done in H. destruct H as (time & pos2 & _ & H).
    apply bind_Done in H. destruct H as (eNu & pos3 & _ & H).
    apply bind_Done in H. destruct H as ([[dirx diry] dirz] & pos4 & _ & H).
    apply IH in H. destruct H as (chunk & -> & Hlen & Hall).
    eexists (_ :: chunk). rewrite <- app_assoc. cbn [app].
    repeat split.
    + cbn. now rewrite Hlen.
    + constructor; [| assumption]. exists pos. reflexivity.
Qed.

Lemma gen_bins_Done (bins : list Z) (starttime : R) (times : list R)
      (counts : list nat) (fuel : nat) (outfile : list line) (pos : nat)
      (outfile' : list line) (pos' : nat) :
  gen_bins ch flux num draws normalization bins starttime times counts fuel
           outfile pos = Done (outfile', pos') ->
  exists chunks,
    outfile' = outfile ++ concat chunks
    /\ Forall2 (fun i chunk =>
                  Py.index counts i = Done (List.length chunk)
                  /\ Forall (drawn_in_bin draws starttime i) chunk)
               bins chunks.
Proof.
  revert outfile pos. induction bins as [| i bins IH]; intros outfile pos H.
  - cbn in H. injection H as <- <-. exists []. cbn. rewrite app_nil_r.
    split; constructor.
  - cbn [gen_bins] in H.
    apply bind_Done in H. destruct H as (count & pos1 & Hc & H).
    apply lift_Done in Hc. destruct Hc as [Hc ->].
    apply bind_Done in H. destruct H as (out1 & pos2 & Hev & H).
    apply gen_events_Done in Hev. destruct Hev as (chunk & -> & Hlen & Hall).
    apply IH in H. destruct H as (chunks & -> & Hrest).
    exists (chunk :: chunks). cbn [concat]. rewrite app_assoc. split.
    + reflexivity.
    + constructor; [| assumption]. split; [| assumption].
      now rewrite Hlen.
Qed.

(** A finished event generation: the output file is cut into one chunk per
    bin, in the order of the bins. *)
Lemma event_generation_Done (starttime endtime : R) (interp : R -> R)
      (fuel : nat) (outfile : list line) (wrote : nat) :
  event_generation ch flux num draws normalization starttime endtime interp fuel
  = Done (outfile, wrote) ->
  wrote = list_sum (binned_nevt num starttime endtime interp)
  /\ exists chunks,
       outfile = concat chunks
       /\ Forall2 (fun i chunk =>
                     Py.index (binned_nevt num starttime endtime interp) i
                     = Done (List.length chunk)
                     /\ Forall (drawn_in_bin draws starttime i) chunk)
                  (Py.range 0 (n_bins (endtime - starttime)) 1) chunks.
Proof.
  unfold event_generation. cbv zeta. fold (binned_nevt num starttime endtime interp).
  intros H. unfold Py.obind in H.
  destruct (gen_bins _ _ _ _ _ _ _ _ _ _ _ _) as [[out pos'] | e |] eqn:Hg;
    try discriminate H.
  injection H as <- <-. split; [reflexivity |].
  apply gen_bins_Done in Hg. destruct Hg as (chunks & -> & Hall).
  exists chunks. split; [reflexivity | exact Hall].
Qed.

(** The sampled counts have one entry per bin. *)
Lemma binned_nevt_length (starttime endtime : R) (interp : R -> R) :
  keeps_shape num ->
  List.length (binned_nevt num starttime endtime interp)
  = Z.to_nat (n_bins (endtime - starttime)).
Proof.
  intros Hs. unfold binned_nevt, binned_t.
  now rewrite Hs, !length_map, range_length.
Qed.

(** The chunks have the sampled lengths. *)
Lemma chunks_match_counts (counts : list nat) (n : Z)
      (P : Z -> list line -> Prop) (chunks : list (list line)) :
  List.length counts = Z.to_nat n ->
  Forall2 (fun i chunk => Py.index counts i = Done (List.length chunk) /\ P i chunk)
          (Py.range 0 n 1) chunks ->
  map (@List.length line) chunks = counts.
Proof.
  intros Hlen H. rewrite range_cells in H. unfold Spec.cells in H.
  rewrite <- Hlen in H.
  assert (H' : Forall2 (fun k chunk => nth_error counts k = Some (List.length chunk))
                       (seq 0 (List.length counts)) chunks).
  { revert H. generalize (seq 0 (List.length counts)). intros ks. revert chunks.
    induction ks as [| k ks IH]; intros chunks H; inversion H; subst.
    - constructor.
    - constructor; [| now apply IH].
      match goal with Hx : _ /\ _ |- _ => destruct Hx as [Hi _] end.
      rewrite index_of_nat in Hi.
      destruct (nth_error counts k); [| discriminate Hi].
      now injection Hi as ->. }
  apply chunk_lengths in H'. rewrite H'. cbn [skipn]. apply firstn_all.
Qed.

(** Inversion of a finished run of [main]. *)
Lemma main_Done (input detector : String.string) (st en : option R) (fuel : nat)
      (res : list line * nat) :
  main ch flux num draws normalization input detector st en fuel = Done res ->
  exists starttime endtime raw_times mass interp,
    parse_input flux input st en = (starttime, endtime, raw_times)
    /\ detectors detector = Done mass
    /\ pchip num raw_times
         (raw_nevts ch flux num normalization
            (targets_per_molecule ch * molecules_per_kt * mass) raw_times)
       = Some interp
    /\ event_generation ch flux num draws normalization starttime endtime
         interp fuel = Done res.
Proof.
  unfold main. destruct (parse_input flux input st en) as [[starttime endtime] raw].
  unfold Py.obind. destruct (detectors detector) as [mass | e |];
    intros H; try discriminate H.
  destruct (pchip num raw _) as [interp |] eqn:Hp; [| discriminate H].
  exists starttime, endtime, raw, mass, interp. repeat split; assumption.
Qed.

End LoopFacts.

(** ** Runs that finish: flat densities

    When the density of the neutrino energy and the angular density are flat
    and positive, every call of the sampler returns at its first attempt, so
    one unit of fuel is enough for the whole run. *)

Section FlatRuns.

Variable ch : Channel.
Variable flux : FluxModule.
Variable num : Numerics.
Variable draws : nat -> R.
Variable normalization : R.
Variables c_nu c_dir : R.

Hypothesis draws_unit : unit_draws draws.
Hypothesis shape : keeps_shape num.
Hypothesis c_nu_pos : 0 < c_nu.
Hypothesis c_dir_pos : 0 < c_dir.
Hypothesis bounds_ordered : fst (bounds_eNu ch) <= snd (bounds_eNu ch).
Hypothesis flat_nu :
  forall time x, fst (bounds_eNu ch) <= x <= snd (bounds_eNu ch) ->
    quad num (fun eE => ddEventRate ch flux normalization eE x time)
         (fst (bounds_eE ch x)) (snd (bounds_eE ch x)) = c_nu.
Hypothesis flat_dir :
  forall eNu x, -1 <= x <= 1 -> dSigma_dCosT ch eNu x = c_dir.

Lemma get_eNu_flat (time : R) (fuel pos : nat) :
  get_eNu ch flux num draws normalization time (S fuel) pos
  = Done (fst (bounds_eNu ch)
          + (snd (bounds_eNu ch) - fst (bounds_eNu ch)) * draws pos,
          S (S pos)).
Proof.
  unfold get_eNu. cbv zeta.
  apply (rejection_sample_flat draws _ _ _ c_nu); try assumption; try lia.
  intros x Hx. now apply flat_nu.
Qed.

Lemma get_direction_flat (eNu : R) (fuel pos : nat) :
  exists v, get_direction ch draws eNu (S fuel) pos = Done (v, S (S (S pos))).
Proof.
  unfold get_direction. cbv zeta. unfold Py.bind at 1.
  rewrite (rejection_sample_flat draws _ _ _ c_dir);
    try assumption; try lia; try lra.
  - unfold Py.bind at 1. unfold Py.lift. rewrite acos_Done.
    + cbn. eexists. reflexivity.
    + destruct (draws_unit pos) as [H0 H1]. split; nra.
  - intros x Hx. now apply flat_dir.
Qed.

Lemma gen_events_flat (count k : nat) (starttime : R) (times : list R)
      (fuel : nat) (outfile : list line) (pos : nat) :
  (k < List.length times)%nat ->
  exists outfile' pos',
    gen_events ch flux num draws normalization count starttime (Z.of_nat k)
               times (S fuel) outfile pos = Done (outfile', pos').
Proof.
  intros Hk. revert outfile pos.
  induction count as [| count IH]; intros outfile pos.
  - cbn. now exists outfile, pos.
  - cbn [gen_events]. unfold Py.bind at 1. unfold Py.random at 1.
    unfold Py.bind at 1. unfold Py.lift. rewrite index_of_nat.
    destruct (nth_error times k) as [time |] eqn:Ht.
    + cbn [Py.obind]. unfold Py.bind at 1. rewrite get_eNu_flat.
      unfold Py.bind at 1.
      destruct (get_direction_flat
                  (fst (bounds_eNu ch)
                   + (snd (bounds_eNu ch) - fst (bounds_eNu ch)) * draws (S pos))
                  fuel (S (S (S pos)))) as [[[dirx diry] dirz] ->].
      apply IH.
    + apply nth_error_None in Ht. lia.
Qed.

Lemma gen_bins_flat (ks : list nat) (starttime : R) (times : list R)
      (counts : list nat) (fuel : nat) (outfile : list line) (pos : nat) :
  (forall k, In k ks ->
     (k < List.length times)%nat /\ (k < List.length counts)%nat) ->
  exists outfile' pos',
    gen_bins ch flux num draws normalization (map Z.of_nat ks) starttime
             times counts (S fuel) outfile pos = Done (outfile', pos').
Proof.
  revert outfile pos. induction ks as [| k ks IH]; intros outfile pos Hks.
  - cbn. now exists outfile, pos.
  - cbn [map gen_bins]. unfold Py.bind at 1. unfold Py.lift.
    rewrite index_of_nat.
    destruct (Hks k (or_introl eq_refl)) as [Ht Hc].
    destruct (nth_error counts k) as [count |] eqn:Hn.
    + cbn [Py.obind]. unfold Py.bind at 1.
      destruct (gen_events_flat count k starttime times fuel outfile pos Ht)
        as (out1 & pos1 & ->).
      apply IH. intros k' Hk'. apply Hks. now right.
    + apply nth_error_None in Hn. lia.
Qed.

Lemma event_generation_flat (starttime endtime : R) (interp : R -> R)
      (fuel : nat) :
  exists outfile,
    event_generation ch flux num draws normalization starttime endtime interp
                     (S fuel)
    = Done (outfile, list_sum (binned_nevt num starttime endtime interp)).
Proof.
  unfold event_generation. cbv zeta.
  fold (binned_nevt num starttime endtime interp).
  set (n := n_bins (endtime - starttime)).
  rewrite range_cells. unfold Spec.cells.
  destruct (gen_bins_flat (seq 0 (Z.to_nat n)) starttime
              (binned_t starttime n)
              (binned_nevt num starttime endtime interp) fuel [] 0%nat)
    as (out & pos' & Hrun).
  - intros k Hk. apply in_seq in Hk.
    rewrite binned_nevt_length by assumption. fold n.
    unfold binned_t. rewrite length_map, range_length. lia.
  - exists out. rewrite Hrun. reflexivity.
Qed.

Lemma main_flat (input detector : String.string) (st en : option R)
      (fuel : nat) (starttime endtime : R) (raw_times : list R) (mass : R)
      (interp : R -> R) :
  parse_input flux input st en = (starttime, endtime, raw_times) ->
  detectors detector = Done mass ->
  pchip num raw_times
    (raw_nevts ch flux num normalization
       (targets_per_molecule ch * molecules_per_kt * mass) raw_times)
  = Some interp ->
  exists outfile,
    main ch flux num draws normalization input detector st en (S fuel)
    = Done (outfile, list_sum (binned_nevt num starttime endtime interp)).
Proof.
  intros Hp Hd Hi. unfold main. rewrite Hp, Hd. cbn [Py.obind]. rewrite Hi.
  apply event_generation_flat.
Qed.

End FlatRuns.

(** ** [int] and the number of bins *)

Lemma int_floor (x : R) :
  0 <= x -> IZR (Py.int x) <= x < IZR (Py.int x) + 1.
Proof.
  intros Hx. unfold Py.int.
  destruct (Rle_dec 0 x) as [_ | Hn]; [| contradiction].
  destruct (base_Int_part x) as [H1 H2]. lra.
Qed.

Lemma int_IZR (z : Z) : Py.int (IZR z) = z.
Proof.
  unfold Py.int. destruct (Rle_dec 0 (IZR z)) as [_ | _].
  - symmetry. apply Int_part_spec. lra.
  - rewrite <- opp_IZR.
    rewrite <- (Int_part_spec (IZR (- z)) (- z)) by lra. lia.
Qed.

Lemma int_nonneg (x : R) : 0 <= x -> (0 <= Py.int x)%Z.
Proof.
  intros Hx. destruct (int_floor x Hx) as [_ H].
  apply Z.lt_succ_r. apply lt_IZR. rewrite succ_IZR. lra.
Qed.

Lemma n_bins_IZR (z : Z) : n_bins (IZR z) = z.
Proof.
  unfold n_bins, bin_width. replace (IZR z / 1) with (IZR z) by field.
  apply int_IZR.
Qed.


Lemma demo_rejects_short : rejects_short_series (Demo.numerics true).
Proof.
  intros xs ys Hlen. cbn [pchip Demo.numerics andb].
  destruct (Nat.ltb_spec (List.length xs) 2) as [_ | H]; [reflexivity | lia].
Qed.

(** A monotone rounding that leaves [0], [bin_width] and [boundsMin] as they
    are keeps the time between [boundsMin] and the rounded
    [boundsMin + bin_width]. *)
Lemma rounded_event_time_bounds (rnd : R -> R) (bmin r : R) :
  (forall x y, x <= y -> rnd x <= rnd y) ->
  rnd 0 = 0 -> rnd bin_width = bin_width -> rnd bmin = bmin ->
  0 <= r < 1 ->
  bmin <= rounded_event_time rnd bmin r <= rnd (bmin + bin_width).
Proof.
  intros Hmono H0 Hw Hb [Hr0 Hr1]. unfold rounded_event_time.
  assert (Hlo : 0 <= rnd (r * bin_width)).
  { rewrite <- H0. apply Hmono. unfold bin_width. lra. }
  assert (Hhi : rnd (r * bin_width) <= bin_width).
  { rewrite <- Hw at 2. apply Hmono. unfold bin_width. lra. }
  split.
  - rewrite <- Hb at 1. apply Hmono. lra.
  - apply Hmono. lra.
Qed.

(** ** The demo installation *)

Section DemoFacts.

Lemma demo_draws_unit : unit_draws Demo.draws.
Proof. intros k. unfold Demo.draws. lra. Qed.

Lemma demo_shape (strict : bool) : keeps_shape (Demo.numerics strict).
Proof. intros lams. cbn. apply length_map. Qed.

Lemma demo_bounds_ordered :
  fst (bounds_eNu Demo.c12e) <= snd (bounds_eNu Demo.c12e).
Proof. cbn. unfold C12e.e_thr. lra. Qed.

Lemma demo_flat_dir (eNu x : R) :
  -1 <= x <= 1 -> dSigma_dCosT Demo.c12e eNu x = 0.5.
Proof.
  intros Hx. cbn. unfold C12e.dSigma_dCosT.
  destruct (Rgt_dec (Rabs x) 1) as [H | _]; [| reflexivity].
  exfalso. assert (Rabs x <= 1) by (apply Rabs_le; lra).
  unfold Rgt in H. lra.
Qed.

(** A run over the window [[0, 3]] with two time samples finishes. *)
Lemma demo_run (fuel : nat) :
  exists outfile,
    main Demo.c12e (Demo.flux 0 3 [0; 3]) (Demo.numerics true) Demo.draws 1
         "infile_eb.txt" "SuperK" None None (S fuel)
    = Done (outfile, 6%nat).
Proof.
  destruct (main_flat Demo.c12e (Demo.flux 0 3 [0; 3]) (Demo.numerics true)
              Demo.draws 1 1 0.5 demo_draws_unit (demo_shape true)
              ltac:(lra) ltac:(lra) demo_bounds_ordered
              ltac:(reflexivity) demo_flat_dir
              "infile_eb.txt" "SuperK" None None fuel
              0 3 [0; 3] 32.5 (fun _ => 2)
              eq_refl eq_refl eq_refl) as [outfile H].
  exists outfile. rewrite H. f_equal. f_equal.
  unfold binned_nevt, binned_t. replace (3 - 0) with (IZR 3) by lra.
  rewrite n_bins_IZR. reflexivity.
Qed.

End DemoFacts.

(** ** The estimate is never negative *)

Lemma coarse_fold_ge (dist : R -> R) (min_val width : R) (js : list Z)
      (acc : R * Z) :
  fst acc <= fst (fold_left (coarse_step dist min_val width) js acc).
Proof.
  revert acc. induction js as [| j js IH]; intros acc; cbn [fold_left].
  - lra.
  - apply Rle_trans with (fst (coarse_step dist min_val width acc j)).
    + unfold coarse_step. cbv zeta.
      destruct (Rgt_dec (dist (cell_center min_val width j)) (fst acc)) as [H | _];
        cbn [fst]; unfold Rgt in *; lra.
    + apply IH.
Qed.

Lemma fine_fold_ge (dist : R -> R) (min_val width : R) (js : list Z) (p : R) :
  p <= fold_left (fine_step dist min_val width) js p.
Proof.
  revert p. induction js as [| j js IH]; intros p; cbn [fold_left].
  - lra.
  - apply Rle_trans with (fine_step dist min_val width p j).
    + unfold fine_step. cbv zeta.
      destruct (Rgt_dec (dist (cell_center min_val width j)) p) as [H | _];
        unfold Rgt in *; lra.
    + apply IH.
Qed.

Lemma estimate_nonneg (dist : R -> R) (min_val width : R) (n : Z) :
  0 <= fine_scan dist min_val width n (coarse_scan dist min_val width n).
Proof.
  unfold coarse_scan.
  pose proof (coarse_fold_ge dist min_val width (Py.range 0 n 10) (0, 0%Z)) as H.
  destruct (fold_left _ _ _) as [p j]. cbn [fst] in H.
  unfold fine_scan. eapply Rle_trans; [exact H | apply fine_fold_ge].
Qed.

(** ** Checks on small inputs *)

Example range_coarse_25 : Py.range 0 25 10 = [0; 10; 20]%Z.
Proof. reflexivity. Qed.

Example range_fine_25 :
  Py.range (Z.max (20 - 9) 0) (Z.min (20 + 10) 25) 1
  = [11; 12; 13; 14; 15; 16; 17; 18; 19; 20; 21; 22; 23; 24]%Z.
Proof. reflexivity. Qed.

Example range_negative : Py.range 0 (-2) 1 = [].
Proof. reflexivity. Qed.

Example index_last : Py.index [4; 5; 6]%nat (-1) = Done 6%nat.
Proof. reflexivity. Qed.

Example index_out_of_range : Py.index [4; 5; 6]%nat 3 = Raise IndexError.
Proof. reflexivity. Qed.

Example detectors_HyperK : detectors "HyperK" = Done 220.
Proof. reflexivity. Qed.

Example detectors_unknown : detectors "Kamiokande" = Raise KeyError.
Proof. reflexivity. Qed.

(** [int] truncates towards zero: for a negative duration it is not the
    floor, and the loops of [main] then run over no bin at all. *)
Example int_truncates : Py.int (-2.5) = (-2)%Z.
Proof.
  unfold Py.int. destruct (Rle_dec 0 (-2.5)) as [H | _]; [lra |].
  replace (- -2.5) with 2.5 by lra.
  rewrite <- (Int_part_spec 2.5 2) by lra. reflexivity.
Qed.

Example n_bins_negative_duration :
  n_bins (2.5 - 5) = (-2)%Z /\ Py.range 0 (n_bins (2.5 - 5)) 1 = [].
Proof.
  assert (H : n_bins (2.5 - 5) = (-2)%Z).
  { unfold n_bins, bin_width. replace ((2.5 - 5) / 1) with (-2.5) by lra.
    apply int_truncates. }
  split; [exact H | now rewrite H].
Qed.

(** The first attempt of the demo sampler over [[-1, 1]] returns 0. *)
Example rejection_sample_demo :
  rejection_sample Demo.draws (fun _ => 1) (-1) 1 200 1 0%nat
  = Done (-1 + (1 - -1) * (1 / 2), 2%nat).
Proof.
  apply (rejection_sample_flat Demo.draws (fun _ => 1) (-1) 1 1 200 0 0);
    try lra; try lia; auto using demo_draws_unit.
Qed.

(** ** The event generation raises no exception

    Once the interpolant is built, a run either finishes or is still inside
    a [while] loop of the sampler. *)

Lemma bind_Raise {A B : Type} (c : Rand A) (k : A -> Rand B)
      (pos : nat) (e : Py.error) :
  Py.bind c k pos = Raise e ->
  c pos = Raise e \/ exists a pos1, c pos = Done (a, pos1) /\ k a pos1 = Raise e.
Proof.
  unfold Py.bind. destruct (c pos) as [[a pos1] | e' |]; intros H;
    try discriminate H.
  - right. now exists a, pos1.
  - left. now injection H as ->.
Qed.

Lemma rejection_sample_no_raise (draws : nat -> R) (dist : R -> R)
      (min_val max_val : R) (n : Z) (fuel pos : nat) (e : Py.error) :
  n <> 0%Z -> rejection_sample draws dist min_val max_val n fuel pos <> Raise e.
Proof.
  intros Hn H. rewrite rejection_sample_unfold in H by assumption.
  cbv zeta in H. rewrite accept_loop_spec in H. unfold Spec.accept in H.
  destruct (Spec.first_accepted _ _ _ _ _ _ _); discriminate H.
Qed.

Section NoRaise.

Variable ch : Channel.
Variable flux : FluxModule.
Variable num : Numerics.
Variable draws : nat -> R.
Variable normalization : R.

Hypothesis draws_unit : unit_draws draws.

Lemma gen_events_no_raise (count k : nat) (starttime : R) (times : list R)
      (fuel : nat) (outfile : list line) (pos : nat) (e : Py.error) :
  (k < List.length times)%nat ->
  gen_events ch flux num draws normalization count starttime (Z.of_nat k)
             times fuel outfile pos <> Raise e.
Proof.
  intros Hk. revert outfile pos.
  induction count as [| count IH]; intros outfile pos H.
  - discriminate H.
  - cbn [gen_events] in H.
    apply bind_Raise in H. destruct H as [H | (r & pos1 & _ & H)];
      [discriminate H |].
    apply bind_Raise in H. destruct H as [H | (time & pos2 & _ & H)].
    { unfold Py.lift in H. rewrite index_of_nat in H.
      destruct (nth_error times k) eqn:Hn; [discriminate H |].
      apply nth_error_None in Hn. lia. }
    apply bind_Raise in H. destruct H as [H | (eNu & pos3 & _ & H)].
    { unfold get_eNu in H. revert H. apply rejection_sample_no_raise. lia. }
    apply bind_Raise in H. destruct H as [H | ([[dirx diry] dirz] & pos4 & _ & H)].
    { revert H. now apply get_direction_no_raise. }
    revert H. apply IH.
Qed.

Lemma gen_bins_no_raise (ks : list nat) (starttime : R) (times : list R)
      (counts : list nat) (fuel : nat) (outfile : list line) (pos : nat)
      (e : Py.error) :
  (forall k, In k ks ->
     (k < List.length times)%nat /\ (k < List.length counts)%nat) ->
  gen_bins ch flux num draws normalization (map Z.of_nat ks) starttime times
           counts fuel outfile pos <> Raise e.
Proof.
  revert outfile pos. induction ks as [| k ks IH]; intros outfile pos Hks H.
  - discriminate H.
  - cbn [map gen_bins] in H. destruct (Hks k (or_introl eq_refl)) as [Ht Hc].
    apply bind_Raise in H. destruct H as [H | (count & pos1 & _ & H)].
    { unfold Py.lift in H. rewrite index_of_nat in H.
      destruct (nth_error counts k) eqn:Hn; [discriminate H |].
      apply nth_error_None in Hn. lia. }
    apply bind_Raise in H. destruct H as [H | (out1 & pos2 & _ & H)].
    { revert H. now apply gen_events_no_raise. }
    revert H. apply IH. intros k' Hk'. apply Hks. now right.
Qed.

Lemma event_generation_no_raise (starttime endtime : R) (interp : R -> R)
      (fuel : nat) (e : Py.error) :
  keeps_shape num ->
  event_generation ch flux num draws normalization starttime endtime interp fuel
  <> Raise e.
Proof.
  intros Hshape H. unfold event_generation in H. cbv zeta in H.
  fold (binned_nevt num starttime endtime interp) in H.
  rewrite range_cells in H. unfold Spec.cells in H.
  destruct (gen_bins _ _ _ _ _ _ _ _ _ _ _ _) as [[out pos'] | e' |] eqn:Hg;
    try discriminate H.
  cbn in H. injection H as ->. revert Hg. apply gen_bins_no_raise.
  intros k Hk. apply in_seq in Hk.
  rewrite binned_nevt_length by assumption.
  unfold binned_t. rewrite length_map, range_length. lia.
Qed.

End NoRaise.

(** ** The estimate of the specification is a maximum *)

Section SpecFacts.

Variable f : Z -> R.

Lemma better_fold_max (js : list Z) (best : R * Z) :
  fst best = f (snd best) ->
  let res := fold_left (Spec.better f) js best in
  fst res = f (snd res)
  /\ fst best <= fst res
  /\ (forall j, In j js -> f j <= fst res)
  /\ (snd res = snd best \/ In (snd res) js).
Proof.
  revert best. induction js as [| j js IH]; intros best Hb; cbn [fold_left].
  - cbv zeta. repeat split; try lra; auto. intros j [].
  - assert (Hstep : fst (Spec.better f best j) = f (snd (Spec.better f best j))
                    /\ fst best <= fst (Spec.better f best j)
                    /\ f j <= fst (Spec.better f best j)
                    /\ (snd (Spec.better f best j) = snd best
                        \/ snd (Spec.better f best j) = j)).
    { unfold Spec.better.
      destruct (Rlt_dec (fst best) (f j)) as [H | H]; cbn [fst snd];
        repeat split; auto; lra. }
    destruct Hstep as (H1 & H2 & H3 & H4).
    destruct (IH _ H1) as (R1 & R2 & R3 & R4). cbv zeta.
    repeat split.
    + exact R1.
    + lra.
    + intros k [<- | Hk]; [lra | now apply R3].
    + destruct R4 as [R4 | R4].
      * rewrite R4. destruct H4 as [H4 | H4]; [now left | right; now left].
      * right. now right.
Qed.

(** [track_max] returns the largest value of [f] over the cells and a cell
    where it is taken. *)
Lemma track_max_sound (js : list Z) (p : R) (j : Z) :
  Spec.track_max f js = Some (p, j) ->
  In j js /\ p = f j /\ forall k, In k js -> f k <= p.
Proof.
  destruct js as [| j0 js]; [discriminate |]. cbn [Spec.track_max].
  intros H. injection H as H.
  destruct (better_fold_max js (f j0, j0) eq_refl) as (R1 & R2 & R3 & R4).
  rewrite H in R1, R2, R3, R4. cbn [fst snd] in *.
  repeat split.
  - destruct R4 as [-> | R4]; [now left | now right].
  - exact R1.
  - intros k [<- | Hk]; [exact R2 | now apply R3].
Qed.

Lemma fold_Rmax_bound (xs : list R) (p : R) :
  p <= fold_left Rmax xs p /\ forall x, In x xs -> x <= fold_left Rmax xs p.
Proof.
  revert p. induction xs as [| y xs IH]; intros p; cbn [fold_left].
  - split; [lra | intros x []].
  - destruct (IH (Rmax p y)) as [H1 H2].
    pose proof (Rmax_l p y). pose proof (Rmax_r p y).
    split; [lra |]. intros x [<- | Hx]; [lra | now apply H2].
Qed.

End SpecFacts.

(** The estimate bounds the density at every cell of both passes. *)
Lemma max_estimate_bound (dist : R -> R) (min_val max_val : R) (n : Z) (p_max : R) :
  Spec.max_estimate dist min_val max_val n = Some p_max ->
  exists j0,
    In j0 (Spec.every_10th n)
    /\ (forall j, In j (Spec.every_10th n) ->
          dist (Spec.center min_val max_val n j)
          <= dist (Spec.center min_val max_val n j0))
    /\ forall j, In j (Spec.every_10th n) \/ In j (Spec.within_9 n j0) ->
         dist (Spec.center min_val max_val n j) <= p_max.
Proof.
  unfold Spec.max_estimate.
  destruct (Spec.track_max _ (Spec.every_10th n)) as [[p j0] |] eqn:Ht;
    [| discriminate].
  intros H. injection H as <-.
  apply track_max_sound in Ht. destruct Ht as (Hin & Hp & Hmax).
  destruct (fold_Rmax_bound
              (map (fun k => dist (Spec.center min_val max_val n k))
                   (Spec.within_9 n j0)) p) as [H1 H2].
  exists j0. split; [exact Hin |]. split.
  - intros j Hj. rewrite <- Hp. now apply Hmax.
  - intros j [Hj | Hj].
    + eapply Rle_trans; [apply Hmax; exact Hj | exact H1].
    + apply H2. apply in_map_iff. now exists j.
Qed.

(** * Main results *)

(** C1.  In every finished run of [main] the number of records in the output
    file is [sum(binned_nevt)], the number that the closing [print] reports:
    the file is the concatenation of one chunk per bin, chunk [i] holding
    exactly [binned_nevt[i]] records, and nothing else is written. *)
Theorem lines_written_sum
        (ch : Channel) (flux : FluxModule) (num : Numerics) (draws : nat -> R)
        (normalization : R) (input detector : String.string)
        (st en : option R) (fuel : nat) (outfile : list line) (wrote : nat) :
  keeps_shape num ->
  main ch flux num draws normalization input detector st en fuel
  = Done (outfile, wrote) ->
  exists starttime endtime raw_times mass interp,
    parse_input flux input st en = (starttime, endtime, raw_times)
    /\ detectors detector = Done mass
    /\ pchip num raw_times
         (raw_nevts ch flux num normalization
            (targets_per_molecule ch * molecules_per_kt * mass) raw_times)
       = Some interp
    /\ List.length outfile = list_sum (binned_nevt num starttime endtime interp)
    /\ wrote = list_sum (binned_nevt num starttime endtime interp)
    /\ exists chunks,
         outfile = concat chunks
         /\ map (@List.length line) chunks
            = binned_nevt num starttime endtime interp.
Proof.
  intros Hshape Hrun.
  apply main_Done in Hrun.
  destruct Hrun as (starttime & endtime & raw_times & mass & interp
                    & Hp & Hd & Hi & Hgen).
  apply event_generation_Done in Hgen. destruct Hgen as (Hw & chunks & Ho & Hall).
  assert (Hlens : map (@List.length line) chunks
                  = binned_nevt num starttime endtime interp).
  { eapply chunks_match_counts; [| exact Hall].
    now apply binned_nevt_length. }
  exists starttime, endtime, raw_times, mass, interp.
  repeat split; try assumption.
  - rewrite Ho, length_concat, Hlens. reflexivity.
  - exists chunks. now split.
Qed.

Lemma lines_written_sum_witness :
  exists outfile,
    main Demo.c12e (Demo.flux 0 3 [0; 3]) (Demo.numerics true) Demo.draws 1
         "infile_eb.txt" "SuperK" None None 1 = Done (outfile, 6%nat)
    /\ List.length outfile = 6%nat.
Proof.
  destruct (demo_run 0) as [outfile Hrun].
  exists outfile. split; [exact Hrun |].
  destruct (lines_written_sum _ _ _ _ _ _ _ _ _ _ _ _ (demo_shape true) Hrun)
    as (starttime & endtime & raw_times & mass & interp
        & Hp & _ & Hi & Hlen & Hw & _).
  rewrite Hlen, <- Hw. reflexivity.
Defined.

(** C2.  [rejection_sample] is the sampler of the specification.  For a
    density that is non-negative on a bounded interval cut into [n > 0]
    cells, the two [for] loops compute the estimate of the specification
    (coarse pass over every 10th cell with the maximum and its cell, fine
    pass over the cells within 9 of it), and the [while] loop returns the
    first candidate whose comparison value is below the density.  Every
    returned value lies in [[min_val, max_val]], and the accepting draw [u]
    lies between 0 and the estimate and satisfies [u < dist(val)]. *)
Theorem rejection_sample_follows_spec
        (draws : nat -> R) (dist : R -> R) (min_val max_val : R) (n : Z)
        (fuel pos : nat) :
  unit_draws draws -> (0 < n)%Z -> min_val <= max_val ->
  (forall x, min_val <= x <= max_val -> 0 <= dist x) ->
  exists p_max,
    Spec.max_estimate dist min_val max_val n = Some p_max
    /\ rejection_sample draws dist min_val max_val n fuel pos
       = Spec.accept draws dist min_val max_val p_max fuel pos
    /\ forall val pos',
         rejection_sample draws dist min_val max_val n fuel pos
         = Done (val, pos') ->
         min_val <= val <= max_val
         /\ exists k,
              (k < fuel)%nat
              /\ val = Spec.candidate draws min_val max_val pos k
              /\ pos' = (pos + 2 * (k + 1))%nat
              /\ 0 <= Spec.threshold draws p_max pos k <= p_max
              /\ (0 < p_max -> Spec.threshold draws p_max pos k < p_max)
              /\ Spec.threshold draws p_max pos k < dist val
              /\ forall k', (k' < k)%nat ->
                   ~ Spec.threshold draws p_max pos k'
                     < dist (Spec.candidate draws min_val max_val pos k').
Proof.
  intros Hd Hn Hmm Hpos.
  set (p := fine_scan dist min_val ((max_val - min_val) / IZR n) n
              (coarse_scan dist min_val ((max_val - min_val) / IZR n) n)).
  assert (Hp0 : 0 <= p) by apply estimate_nonneg.
  assert (Hunf : rejection_sample draws dist min_val max_val n fuel pos
                 = accept_loop draws fuel dist min_val max_val p pos).
  { rewrite rejection_sample_unfold by lia. reflexivity. }
  exists p. split; [| split].
  - now apply estimate_spec.
  - rewrite Hunf. apply accept_loop_spec.
  - intros val pos' Hrun. split.
    + eapply rejection_sample_in_range; eassumption.
    + rewrite Hunf in Hrun. apply accept_loop_Done in Hrun.
      destruct Hrun as (k & Hk & Hv & Hp' & Hacc & Hfirst).
      exists k. repeat split; try assumption.
      * unfold Spec.threshold. destruct (Hd (pos + 2 * k + 1)%nat). nra.
      * unfold Spec.threshold. destruct (Hd (pos + 2 * k + 1)%nat). nra.
      * intros Hpp. unfold Spec.threshold.
        destruct (Hd (pos + 2 * k + 1)%nat). nra.
Qed.

Lemma rejection_sample_follows_spec_witness :
  exists p_max,
    Spec.max_estimate (fun _ => 1) (-1) 1 200 = Some p_max
    /\ rejection_sample Demo.draws (fun _ => 1) (-1) 1 200 1 0%nat
       = Spec.accept Demo.draws (fun _ => 1) (-1) 1 p_max 1 0%nat.
Proof.
  destruct (rejection_sample_follows_spec Demo.draws (fun _ => 1) (-1) 1 200
              1 0%nat demo_draws_unit ltac:(lia) ltac:(lra)
              ltac:(intros; lra)) as (p_max & He & Hs & _).
  exists p_max. split; assumption.
Defined.

(** C3, as the specification states it, fails in the arithmetic of the
    program: in binary64 the sum [boundsMin + r * bin_width] can round up to
    [boundsMax].  With [starttime = 1.0], bin 0 and the draw
    [r = 1 - 2^-53] of [[0, 1)], the time is [2.0], which is [boundsMax]. *)
Lemma event_time_reaches_boundsMax :
  PrimFloat.leb F64.zero F64.below_one = true
  /\ PrimFloat.ltb F64.below_one F64.one = true
  /\ PrimFloat.leb (F64.boundsMin F64.one 0)
                   (F64.event_time F64.one 0 F64.below_one) = true
  /\ PrimFloat.ltb (F64.event_time F64.one 0 F64.below_one)
                   (F64.boundsMax F64.one 0) = false
  /\ PrimFloat.eqb (F64.event_time F64.one 0 F64.below_one)
                   (F64.boundsMax F64.one 0) = true.
Proof. repeat split; vm_compute; reflexivity. Qed.

(** C3, amended.  In a finished run of [main] the output file is the
    concatenation of one chunk per bin, in the order of the bins; chunk [i]
    holds the [binned_nevt[i]] records generated inside bin [i], the time of
    each is [boundsMin + r * bin_width] for a draw [r], and it satisfies
    [boundsMin <= t <= boundsMin + bin_width] with
    [boundsMin = starttime + i * bin_width]. *)
Theorem event_times_in_closed_bin
        (ch : Channel) (flux : FluxModule) (num : Numerics) (draws : nat -> R)
        (normalization : R) (input detector : String.string)
        (st en : option R) (fuel : nat) (outfile : list line) (wrote : nat) :
  unit_draws draws ->
  main ch flux num draws normalization input detector st en fuel
  = Done (outfile, wrote) ->
  exists starttime endtime raw_times mass interp,
    parse_input flux input st en = (starttime, endtime, raw_times)
    /\ detectors detector = Done mass
    /\ pchip num raw_times
         (raw_nevts ch flux num normalization
            (targets_per_molecule ch * molecules_per_kt * mass) raw_times)
       = Some interp
    /\ exists chunks,
         outfile = concat chunks
         /\ Forall2
              (fun i chunk =>
                 Py.index (binned_nevt num starttime endtime interp) i
                 = Done (List.length chunk)
                 /\ Forall (fun l => drawn_in_bin draws starttime i l
                                     /\ in_bin_closed starttime i l) chunk)
              (Py.range 0 (n_bins (endtime - starttime)) 1) chunks.
Proof.
  intros Hd Hrun.
  apply main_Done in Hrun.
  destruct Hrun as (starttime & endtime & raw_times & mass & interp
                    & Hp & Hdet & Hi & Hgen).
  apply event_generation_Done in Hgen. destruct Hgen as (_ & chunks & Ho & Hall).
  exists starttime, endtime, raw_times, mass, interp.
  repeat split; try assumption.
  exists chunks. split; [assumption |].
  eapply Forall2_impl; [| exact Hall].
  intros i chunk [Hidx Hdrawn]. split; [assumption |].
  eapply Forall_impl; [| exact Hdrawn].
  intros l Hl. split; [assumption |].
  destruct Hl as [k Hk]. unfold in_bin_closed. rewrite Hk.
  unfold boundsMin, bin_width. destruct (Hd k). lra.
Qed.

Lemma event_times_in_closed_bin_witness :
  exists outfile chunks,
    main Demo.c12e (Demo.flux 0 3 [0; 3]) (Demo.numerics true) Demo.draws 1
         "infile_eb.txt" "SuperK" None None 1 = Done (outfile, 6%nat)
    /\ outfile = concat chunks
    /\ Forall2 (fun i chunk => Forall (in_bin_closed 0 i) chunk)
               [0; 1; 2]%Z chunks.
Proof.
  destruct (demo_run 0) as [outfile Hrun].
  destruct (event_times_in_closed_bin _ _ _ _ _ _ _ _ _ _ _ _
              demo_draws_unit Hrun)
    as (starttime & endtime & raw_times & mass & interp
        & Hp & _ & _ & chunks & Ho & Hall).
  cbn in Hp. injection Hp as <- <- <-.
  exists outfile, chunks. split; [exact Hrun |]. split; [exact Ho |].
  replace (3 - 0) with (IZR 3) in Hall by lra. rewrite n_bins_IZR in Hall.
  change (Py.range 0 3 1) with [0; 1; 2]%Z in Hall.
  eapply Forall2_impl; [| exact Hall].
  intros i chunk [_ Hc]. eapply Forall_impl; [| exact Hc].
  intros l [_ Hl]. exact Hl.
Defined.




(** C5.  A direction returned by [get_direction] has Euclidean norm 1 (in
    real arithmetic): it is [(sinT * cos phi, sinT * sin phi, cosT)] with
    [sinT = sin (acos cosT)] for a cosine [cosT] of [[-1, 1]] and an azimuth
    [phi] of [[0, 2 pi)]. *)
Theorem direction_unit_norm
        (ch : Channel) (draws : nat -> R) (eNu : R) (fuel pos : nat)
        (v : R * R * R) (pos' : nat) :
  unit_draws draws ->
  get_direction ch draws eNu fuel pos = Done (v, pos') ->
  norm3 v = 1
  /\ exists cosT phi,
       -1 <= cosT <= 1 /\ 0 <= phi < 2 * PI
       /\ v = (sin (Ratan.acos cosT) * cos phi,
               sin (Ratan.acos cosT) * sin phi, cosT).
Proof.
  intros Hd Hrun.
  destruct (get_direction_Done ch draws eNu fuel pos v pos' Hd Hrun)
    as (cosT & phi & Hc & Hphi & Hv).
  split.
  - rewrite Hv. now apply direction_unit.
  - now exists cosT, phi.
Qed.

Lemma direction_unit_norm_witness :
  exists v,
    get_direction Demo.c12e Demo.draws 20 1 0%nat = Done (v, 3%nat)
    /\ norm3 v = 1.
Proof.
  destruct (get_direction_flat Demo.c12e Demo.draws 0.5 demo_draws_unit
              ltac:(lra) demo_flat_dir 20 0 0%nat) as [v Hrun].
  exists v. split; [exact Hrun |].
  apply (direction_unit_norm Demo.c12e Demo.draws 20 1 0 v 3 demo_draws_unit Hrun).
Defined.

(** C6, as the specification states it, fails: [main] has no check of the
    number of time samples.  With a single sample and a [pchip] that rejects
    short series the run ends with the error of [pchip] itself, raised after
    the rates have been integrated and handed over; with a [pchip] that
    accepts the series the same run finishes. *)
Lemma short_series_not_checked :
  (List.length [0] < 2)%nat
  /\ main Demo.c12e (Demo.flux 0 0 [0]) (Demo.numerics true) Demo.draws 1
          "infile_eb.txt" "SuperK" None None 1 = Raise PchipError
  /\ main Demo.c12e (Demo.flux 0 0 [0]) (Demo.numerics false) Demo.draws 1
          "infile_eb.txt" "SuperK" None None 1 = Done ([], 0%nat).
Proof.
  split; [cbn; lia |]. split.
  - reflexivity.
  - unfold main. cbn [parse_input Demo.flux detectors String.eqb Ascii.eqb
                       Bool.eqb Py.obind pchip Demo.numerics andb].
    unfold event_generation. cbv zeta.
    replace (0 - 0) with (IZR 0) by lra. rewrite n_bins_IZR. reflexivity.
Qed.

(** C6, amended.  When [parse_input] yields fewer than 2 time samples the
    run fails, whatever the fuel.  [main] has no check of its own: for a
    known detector it integrates the rate at each sample and calls [pchip]
    on the series, one rate per sample; [pchip] rejects the short series,
    and the run ends with the error raised from inside [pchip]. *)
Theorem short_series_fails_in_pchip
        (ch : Channel) (flux : FluxModule) (num : Numerics) (draws : nat -> R)
        (normalization : R) (input detector : String.string)
        (st en : option R) (fuel : nat)
        (starttime endtime : R) (raw_times : list R) :
  rejects_short_series num ->
  parse_input flux input st en = (starttime, endtime, raw_times) ->
  (List.length raw_times < 2)%nat ->
  (exists e, main ch flux num draws normalization input detector st en fuel
             = Raise e)
  /\ forall mass, detectors detector = Done mass ->
       let nevts :=
         raw_nevts ch flux num normalization
           (targets_per_molecule ch * molecules_per_kt * mass) raw_times in
       List.length nevts = List.length raw_times
       /\ pchip num raw_times nevts = None
       /\ main ch flux num draws normalization input detector st en fuel
          = Raise PchipError.
Proof.
  intros Hrej Hp Hshort.
  assert (Hknown : forall mass, detectors detector = Done mass ->
            main ch flux num draws normalization input detector st en fuel
            = Raise PchipError).
  { intros mass Hd. unfold main. rewrite Hp, Hd. cbn [Py.obind].
    now rewrite (Hrej raw_times _ Hshort). }
  split.
  - destruct (detectors detector) as [mass | e |] eqn:Hd.
    + exists PchipError. now apply (Hknown mass).
    + exists e. unfold main. rewrite Hp, Hd. reflexivity.
    + exfalso. unfold detectors in Hd.
      destruct (String.eqb detector "SuperK"); [discriminate Hd |].
      destruct (String.eqb detector "HyperK"); discriminate Hd.
  - intros mass Hd nevts. split; [| split].
    + unfold nevts, raw_nevts. apply length_map.
    + now apply Hrej.
    + now apply (Hknown mass).
Qed.

Lemma short_series_fails_in_pchip_witness :
  main Demo.c12e (Demo.flux 0 0 [0]) (Demo.numerics true) Demo.draws 1
       "infile_eb.txt" "SuperK" None None 1 = Raise PchipError.
Proof.
  destruct (short_series_fails_in_pchip Demo.c12e (Demo.flux 0 0 [0])
              (Demo.numerics true) Demo.draws 1 "infile_eb.txt" "SuperK"
              None None 1 0 0 [0] demo_rejects_short eq_refl
              ltac:(cbn; lia))
    as [_ Hknown].
  exact (proj2 (proj2 (Hknown 32.5 eq_refl))).
Defined.

(** C7.  Outside the band [|eE - (eNu - e_thr)| <= epsilon] the function
    [dSigma_dE] of c12e returns 0.  It is defined for every pair of energies:
    its only division is by the non-zero constant [2 * epsilon], and the
    branch taken here does not reach it.  The integrand [ddEventRate] built
    on it vanishes there as well. *)
Theorem dSigma_dE_zero_outside_band (eNu eE : R) :
  Rabs (eE - (eNu - C12e.e_thr)) > C12e.epsilon ->
  C12e.dSigma_dE eNu eE = 0
  /\ 2 * C12e.epsilon <> 0
  /\ forall (targets : R) (pid : Z) (flux : FluxModule) (normalization time : R),
       ddEventRate (C12e.channel targets pid) flux normalization eE eNu time = 0.
Proof.
  intros H. split; [| split].
  - now apply dSigma_dE_outside.
  - pose proof epsilon_pos. lra.
  - intros targets pid flux normalization time. unfold ddEventRate. cbn.
    rewrite dSigma_dE_outside by assumption. ring.
Qed.

Lemma dSigma_dE_zero_outside_band_witness :
  Rabs (0 - (20 - C12e.e_thr)) > C12e.epsilon /\ C12e.dSigma_dE 20 0 = 0.
Proof.
  assert (H : Rabs (0 - (20 - C12e.e_thr)) > C12e.epsilon).
  { unfold C12e.e_thr, C12e.epsilon. rewrite Rabs_left; lra. }
  split; [exact H |].
  exact (proj1 (dSigma_dE_zero_outside_band 20 0 H)).
Defined.

(** C8.  For a density that is identically zero on [[min_val, max_val]]
    (and [n <> 0] cells) the estimate [p_max] is 0, no attempt passes the
    test [p_max * u < dist(val)], and the loop is still running after any
    number of iterations: no exception and no value comes out. *)
Theorem zero_density_never_returns
        (draws : nat -> R) (dist : R -> R) (min_val max_val : R) (n : Z) :
  unit_draws draws -> n <> 0%Z -> min_val <= max_val ->
  (forall x, min_val <= x <= max_val -> dist x = 0) ->
  let width := (max_val - min_val) / IZR n in
  fine_scan dist min_val width n (coarse_scan dist min_val width n) = 0
  /\ (forall pos k,
        ~ 0 * draws (pos + 2 * k + 1)%nat
          < dist (Spec.candidate draws min_val max_val pos k))
  /\ forall fuel pos,
       rejection_sample draws dist min_val max_val n fuel pos = OutOfFuel.
Proof.
  intros Hd Hn Hmm Hz width.
  assert (Hp : fine_scan dist min_val width n (coarse_scan dist min_val width n) = 0)
    by (now apply estimate_zero).
  split; [exact Hp |]. split.
  - intros pos k Hacc. rewrite Hz in Hacc; [lra |].
    now apply candidate_in_range.
  - intros fuel pos. rewrite rejection_sample_unfold by assumption.
    cbv zeta. fold width. rewrite Hp. now apply accept_loop_zero.
Qed.

Lemma zero_density_never_returns_witness :
  rejection_sample Demo.draws (fun _ => 0) (-1) 1 200 1000 0%nat = OutOfFuel.
Proof.
  exact (proj2 (proj2 (zero_density_never_returns Demo.draws (fun _ => 0) (-1) 1 200
                         demo_draws_unit ltac:(lia) ltac:(lra)
                         ltac:(reflexivity))) 1000%nat 0%nat).
Defined.

(** C9.  From the threshold on, [dSigma_dE] of c12e is non-negative for every
    outgoing energy: the cubic [sigma0 * (a1 x + a2 x^2 + a3 x^3)] with
    [x = eNu - e_thr] is non-negative for [x >= 0].  The interval
    [bounds_eNu = [e_thr + 0.8, 100]] lies above the threshold, and with a
    non-negative emission and normalization the integrand [ddEventRate] is
    non-negative too. *)
Theorem dSigma_dE_nonneg (eNu eE : R) :
  C12e.e_thr <= eNu ->
  0 <= C12e.dSigma_dE eNu eE
  /\ C12e.bounds_eNu = (C12e.e_thr + 0.8, 100)
  /\ C12e.e_thr <= fst C12e.bounds_eNu
  /\ forall (targets : R) (pid : Z) (flux : FluxModule) (normalization time : R),
       0 <= nu_emission flux eNu time -> 0 <= normalization ->
       0 <= ddEventRate (C12e.channel targets pid) flux normalization eE eNu time.
Proof.
  intros H. split; [| split; [| split]].
  - now apply dSigma_dE_ge_0.
  - reflexivity.
  - cbn. lra.
  - intros targets pid flux normalization time Hem Hnorm.
    unfold ddEventRate, dFlux_dE. cbn [dSigma_dE C12e.channel]. cbv zeta.
    apply Rmult_le_pos; [now apply dSigma_dE_ge_0 |].
    apply Rmult_le_pos; [| assumption].
    apply Rmult_le_pos; [| assumption].
    assert (Hden : 0 < 4 * PI * dSquared).
    { pose proof PI_RGT_0. unfold dSquared.
      assert (0 < 1.563738e+33 ^ 2) by (apply pow_lt; lra). nra. }
    unfold Rdiv. rewrite Rmult_1_l. left. now apply Rinv_0_lt_compat.
Qed.

Lemma dSigma_dE_nonneg_witness :
  C12e.e_thr <= 50 /\ 0 <= C12e.dSigma_dE 50 (50 - C12e.e_thr).
Proof.
  assert (H : C12e.e_thr <= 50) by (unfold C12e.e_thr; lra).
  split; [exact H |].
  exact (proj1 (dSigma_dE_nonneg 50 (50 - C12e.e_thr) H)).
Defined.

(** C10.  The outgoing energy of c12e does not depend on the direction:
    [get_eE(eNu, cosT) = eNu - e_thr] for every cosine, so two cosines give
    the same energy, and the energy lies inside
    [bounds_eE(eNu) = [eNu - e_thr - epsilon, eNu - e_thr + epsilon]]. *)
Theorem get_eE_direction_independent (eNu cosT1 cosT2 : R) :
  C12e.get_eE eNu cosT1 = C12e.get_eE eNu cosT2
  /\ C12e.get_eE eNu cosT1 = eNu - C12e.e_thr
  /\ C12e.bounds_eE eNu
     = (eNu - C12e.e_thr - C12e.epsilon, eNu - C12e.e_thr + C12e.epsilon)
  /\ fst (C12e.bounds_eE eNu) <= C12e.get_eE eNu cosT1 <= snd (C12e.bounds_eE eNu).
Proof.
  pose proof epsilon_pos as He.
  unfold C12e.bounds_eE, C12e.get_eE. cbn [fst snd].
  repeat split; lra.
Qed.

(** * Further properties *)

(** ** c12e.py *)

Lemma c12e_band_value (eNu eE : R) :
  within (C12e.bounds_eE eNu) eE ->
  C12e.dSigma_dE eNu eE = c12e_sigma eNu / (2 * C12e.epsilon).
Proof.
  unfold within, C12e.bounds_eE, C12e.get_eE. cbn [fst snd]. intros H.
  unfold C12e.dSigma_dE, C12e.get_eE, c12e_sigma. cbv zeta.
  destruct (Rgt_dec (Rabs (eNu - C12e.e_thr - eE)) C12e.epsilon) as [Hout | _];
    [| reflexivity].
  exfalso. unfold Rgt in Hout.
  assert (Rabs (eNu - C12e.e_thr - eE) <= C12e.epsilon) by (apply Rabs_le; lra).
  lra.
Qed.

(** X1.  The two kinematic windows of c12e are inverse to each other: [eE]
    lies within [bounds_eE(eNu)] exactly when [eNu] lies within
    [_bounds_eNu(eE)], and exactly then [dSigma_dE] is past its guard. *)
Theorem c12e_bounds_dual (eNu eE : R) :
  (within (C12e.bounds_eE eNu) eE <-> within (C12e._bounds_eNu eE) eNu)
  /\ (within (C12e.bounds_eE eNu) eE
      <-> C12e.dSigma_dE eNu eE = c12e_sigma eNu / (2 * C12e.epsilon)
          /\ ~ Rabs (C12e.get_eE eNu 0 - eE) > C12e.epsilon).
Proof.
  unfold within, C12e.bounds_eE, C12e._bounds_eNu, C12e.get_eE. cbn [fst snd].
  split; [split; intros [H1 H2]; split; lra |].
  unfold C12e.dSigma_dE, C12e.get_eE, c12e_sigma. cbv zeta.
  destruct (Rgt_dec (Rabs (eNu - C12e.e_thr - eE)) C12e.epsilon) as [Hout | Hin].
  - split.
    + intros [H1 H2]. exfalso. unfold Rgt in Hout.
      assert (Rabs (eNu - C12e.e_thr - eE) <= C12e.epsilon)
        by (apply Rabs_le; lra).
      lra.
    + intros [_ Hn]. contradiction.
  - split.
    + intros _. split; [reflexivity | exact Hin].
    + intros _. apply Rnot_gt_le in Hin.
      pose proof (Rle_abs (eNu - C12e.e_thr - eE)) as Hp.
      pose proof (Rle_abs (- (eNu - C12e.e_thr - eE))) as Hm.
      rewrite Rabs_Ropp in Hm. lra.
Qed.

(** X2.  The box that stands for the Dirac delta has the total cross section
    as its area: the Riemann integral of [dSigma_dE(eNu, .)] over
    [bounds_eE(eNu)] exists and is the local [sigma]. *)
Theorem dSigma_dE_integrates_to_sigma (eNu : R) :
  exists pr0 : Riemann_integrable (C12e.dSigma_dE eNu)
                 (fst (C12e.bounds_eE eNu)) (snd (C12e.bounds_eE eNu)),
    forall pr : Riemann_integrable (C12e.dSigma_dE eNu)
                  (fst (C12e.bounds_eE eNu)) (snd (C12e.bounds_eE eNu)),
      RiemannInt pr = c12e_sigma eNu.
Proof.
  set (lo := fst (C12e.bounds_eE eNu)). set (hi := snd (C12e.bounds_eE eNu)).
  set (c := c12e_sigma eNu / (2 * C12e.epsilon)).
  pose proof epsilon_pos as He.
  assert (Hlohi : lo <= hi).
  { unfold lo, hi, C12e.bounds_eE. cbn [fst snd]. lra. }
  assert (Hflat : forall x, lo <= x <= hi -> C12e.dSigma_dE eNu x = c).
  { intros x Hx. now apply c12e_band_value. }
  assert (pr0 : Riemann_integrable (C12e.dSigma_dE eNu) lo hi).
  { apply (@Riemann_integrable_ext (fct_cte c) (C12e.dSigma_dE eNu) lo hi);
      [| apply RiemannInt_P14].
    intros x Hx. rewrite Rmin_left, Rmax_right in Hx by assumption.
    unfold fct_cte. symmetry. now apply Hflat. }
  exists pr0. intros pr.
  rewrite (RiemannInt_P18 pr (RiemannInt_P14 lo hi c) Hlohi).
  - rewrite RiemannInt_P15. unfold c, lo, hi, C12e.bounds_eE. cbn [fst snd].
    field. lra.
  - intros x Hx. unfold fct_cte. apply Hflat. lra.
Qed.

(** X3.  Above the threshold the density is strictly positive on the whole
    window [bounds_eE(eNu)]; in particular it is at the energy [get_eE] that
    [main] assigns, for every neutrino energy within [bounds_eNu]. *)
Theorem dSigma_dE_positive_in_band (eNu eE : R) :
  C12e.e_thr < eNu -> within (C12e.bounds_eE eNu) eE ->
  0 < C12e.dSigma_dE eNu eE.
Proof.
  intros Hthr Hin.
  rewrite (c12e_band_value eNu eE Hin).
  pose proof epsilon_pos as He. pose proof sigma0_pos as Hs.
  apply Rmult_lt_0_compat; [| apply Rinv_0_lt_compat; lra].
  unfold c12e_sigma. apply Rmult_lt_0_compat; [exact Hs |].
  unfold C12e.a1, C12e.a2, C12e.a3.
  set (x := eNu - C12e.e_thr). assert (Hx : 0 < x) by (unfold x; lra).
  assert (Hq : 0 < 10.164 + -0.4666 * x + 0.0546 * (x * x)).
  { assert (Hsq := pow2_ge_0 (x - 4)). nra. }
  replace (10.164 * x + -0.4666 * x ^ 2 + 0.0546 * x ^ 3)
    with (x * (10.164 + -0.4666 * x + 0.0546 * (x * x))) by ring.
  now apply Rmult_lt_0_compat.
Qed.

Lemma dSigma_dE_positive_in_band_witness :
  0 < C12e.dSigma_dE 50 (C12e.get_eE 50 0).
Proof.
  apply dSigma_dE_positive_in_band.
  - unfold C12e.e_thr. lra.
  - unfold within, C12e.bounds_eE. cbn [fst snd]. pose proof epsilon_pos. lra.
Defined.

(** X4.  The cross section grows with the neutrino energy: from the
    threshold on, the density at the assigned energy [get_eE] is
    non-decreasing in [eNu], so over [bounds_eNu] it is largest at 100. *)
Theorem dSigma_dE_monotone (eNu1 eNu2 cosT1 cosT2 : R) :
  C12e.e_thr <= eNu1 -> eNu1 <= eNu2 ->
  C12e.dSigma_dE eNu1 (C12e.get_eE eNu1 cosT1)
  <= C12e.dSigma_dE eNu2 (C12e.get_eE eNu2 cosT2).
Proof.
  intros H1 H12.
  assert (Hin : forall e c, within (C12e.bounds_eE e) (C12e.get_eE e c)).
  { intros e c. unfold within, C12e.bounds_eE, C12e.get_eE. cbn [fst snd].
    pose proof epsilon_pos. lra. }
  rewrite (c12e_band_value eNu1 _ (Hin eNu1 cosT1)).
  rewrite (c12e_band_value eNu2 _ (Hin eNu2 cosT2)).
  pose proof epsilon_pos as He. pose proof sigma0_pos as Hs.
  apply Rmult_le_compat_r; [left; apply Rinv_0_lt_compat; lra |].
  unfold c12e_sigma. apply Rmult_le_compat_l; [lra |].
  unfold C12e.a1, C12e.a2, C12e.a3.
  set (x := eNu1 - C12e.e_thr). set (y := eNu2 - C12e.e_thr).
  assert (Hx : 0 <= x) by (unfold x; lra).
  assert (Hxy : x <= y) by (unfold x, y; lra).
  assert (Hq : 0 <= 10.164 + -0.4666 * (x + y)
                    + 0.0546 * (x * x + x * y + y * y)).
  { assert (Hsq := pow2_ge_0 (x + y - 5)).
    assert (Hd := pow2_ge_0 (x - y)). nra. }
  assert (Hdiff : (10.164 * y + -0.4666 * y ^ 2 + 0.0546 * y ^ 3)
                  - (10.164 * x + -0.4666 * x ^ 2 + 0.0546 * x ^ 3)
                  = (y - x) * (10.164 + -0.4666 * (x + y)
                               + 0.0546 * (x * x + x * y + y * y))) by ring.
  assert (0 <= (y - x) * (10.164 + -0.4666 * (x + y)
                          + 0.0546 * (x * x + x * y + y * y)))
    by (apply Rmult_le_pos; lra).
  lra.
Qed.

Lemma dSigma_dE_monotone_witness :
  C12e.dSigma_dE 20 (C12e.get_eE 20 0) <= C12e.dSigma_dE 100 (C12e.get_eE 100 1).
Proof.
  apply dSigma_dE_monotone; unfold C12e.e_thr; lra.
Defined.

(** ** rejection_sample *)

Lemma in_range_10_iff (n j : Z) :
  In j (Py.range 0 n 10) <-> (0 <= j < n)%Z /\ (j mod 10 = 0)%Z.
Proof.
  rewrite <- every_10th_range. unfold Spec.every_10th.
  rewrite filter_In, <- range_cells, in_range_unit, Z.eqb_eq. tauto.
Qed.

Section ScanBounds.

Variable dist : R -> R.
Variables min_val width : R.

Let f (j : Z) : R := dist (cell_center min_val width j).

Lemma coarse_fold_facts (js : list Z) (acc : R * Z) :
  let res := fold_left (coarse_step dist min_val width) js acc in
  fst acc <= fst res
  /\ (forall j, In j js -> f j <= fst res)
  /\ (res = acc \/ (In (snd res) js /\ fst res = f (snd res))).
Proof.
  revert acc. induction js as [| j js IH]; intros acc; cbn [fold_left]; cbv zeta.
  - split; [lra |]. split; [intros j [] | now left].
  - destruct (IH (coarse_step dist min_val width acc j)) as (H1 & H2 & H3).
    assert (Hstep : fst acc <= fst (coarse_step dist min_val width acc j)
                    /\ f j <= fst (coarse_step dist min_val width acc j)
                    /\ (coarse_step dist min_val width acc j = acc
                        \/ coarse_step dist min_val width acc j = (f j, j))).
    { unfold coarse_step. cbv zeta. fold (f j).
      destruct (Rgt_dec (f j) (fst acc)) as [H | H]; cbn [fst];
        unfold Rgt in H; repeat split; auto; lra. }
    destruct Hstep as (S1 & S2 & S3).
    split; [lra |]. split.
    + intros k [<- | Hk]; [lra | now apply H2].
    + destruct H3 as [H3 | [H3 H4]].
      * rewrite H3. destruct S3 as [S3 | S3]; rewrite S3.
        -- now left.
        -- right. cbn [fst snd]. split; [now left | reflexivity].
      * right. split; [now right | exact H4].
Qed.

Lemma fine_fold_facts (js : list Z) (p : R) :
  let res := fold_left (fine_step dist min_val width) js p in
  p <= res
  /\ (forall j, In j js -> f j <= res)
  /\ (res = p \/ exists j, In j js /\ res = f j).
Proof.
  revert p. induction js as [| j js IH]; intros p; cbn [fold_left]; cbv zeta.
  - split; [lra |]. split; [intros j [] | now left].
  - destruct (IH (fine_step dist min_val width p j)) as (H1 & H2 & H3).
    assert (Hstep : p <= fine_step dist min_val width p j
                    /\ f j <= fine_step dist min_val width p j
                    /\ (fine_step dist min_val width p j = p
                        \/ fine_step dist min_val width p j = f j)).
    { unfold fine_step. cbv zeta. fold (f j).
      destruct (Rgt_dec (f j) p) as [H | H]; unfold Rgt in H;
        repeat split; auto; lra. }
    destruct Hstep as (S1 & S2 & S3).
    split; [lra |]. split.
    + intros k [<- | Hk]; [lra | now apply H2].
    + destruct H3 as [H3 | (k & Hk & H3)].
      * rewrite H3. destruct S3 as [S3 | S3]; rewrite S3.
        -- now left.
        -- right. exists j. split; [now left | reflexivity].
      * right. exists k. split; [now right | exact H3].
Qed.

End ScanBounds.

(** X6.  The estimate of the maximum bounds the density at every cell that
    the two scans visit (every 10th cell, and the cells from [j_max - 9] to
    [j_max + 9] inside the partition), it is never negative, and it is either
    0 or the density at the centre of one of the [n] cells. *)
Theorem estimate_bounds_visited_cells
        (dist : R -> R) (min_val width : R) (n : Z) :
  let f := fun j => dist (cell_center min_val width j) in
  let coarse := coarse_scan dist min_val width n in
  let p_max := fine_scan dist min_val width n coarse in
  0 <= p_max
  /\ (forall j, (0 <= j < n)%Z -> (j mod 10 = 0)%Z -> f j <= p_max)
  /\ (forall j, (0 <= j < n)%Z -> (Z.abs (j - snd coarse) <= 9)%Z ->
        f j <= p_max)
  /\ (p_max = 0 \/ exists j, (0 <= j < n)%Z /\ p_max = f j).
Proof.
  intros f coarse p_max.
  destruct (coarse_fold_facts dist min_val width (Py.range 0 n 10) (0, 0%Z))
    as (C1 & C2 & C3).
  fold (coarse_scan dist min_val width n) in C1, C2, C3. fold coarse in C1, C2, C3.
  cbn [fst] in C1.
  unfold p_max, fine_scan. destruct coarse as [p j0] eqn:Hc. cbn [fst snd] in *.
  destruct (fine_fold_facts dist min_val width
              (Py.range (Z.max (j0 - 9) 0) (Z.min (j0 + 10) n) 1) p)
    as (F1 & F2 & F3).
  split; [lra |]. split; [| split].
  - intros j Hj Hmod. apply Rle_trans with p; [| exact F1].
    apply C2. apply in_range_10_iff. now split.
  - intros j Hj Habs. apply F2. apply in_range_unit. lia.
  - destruct F3 as [F3 | (k & Hk & F3)].
    + rewrite F3. destruct C3 as [C3 | [C3 C4]].
      * left. now injection C3 as ->.
      * right. exists j0. split; [| exact C4]. now apply in_range_10 in C3.
    + right. exists k. split; [| exact F3].
      apply in_range_unit in Hk. lia.
Qed.

(** X7.  When the density at the centres of the cells rises strictly up to
    one cell and falls strictly after it, and is not negative at the first
    cell, the two scans find the exact maximum over all [n] cells. *)
Theorem scan_finds_peak
        (dist : R -> R) (min_val width : R) (n m : Z) :
  let f := fun j => dist (cell_center min_val width j) in
  unimodal_cells f n m -> 0 <= f 0%Z ->
  fine_scan dist min_val width n (coarse_scan dist min_val width n) = f m
  /\ forall j, (0 <= j < n)%Z -> f j <= f m.
Proof.
  intros f (Hm & Hup & Hdown) Hf0.
  assert (Hmax : forall j, (0 <= j < n)%Z -> f j <= f m).
  { intros j Hj. destruct (Z.lt_trichotomy j m) as [H | [-> | H]].
    - left. apply Hup; lia.
    - lra.
    - left. apply Hdown; lia. }
  split; [| exact Hmax].
  destruct (coarse_fold_facts dist min_val width (Py.range 0 n 10) (0, 0%Z))
    as (C1 & C2 & C3).
  fold (coarse_scan dist min_val width n) in C1, C2, C3. cbn [fst] in C1.
  destruct (coarse_scan dist min_val width n) as [p j0] eqn:Hc.
  cbn [fst snd] in *. fold f in C2, C3.
  (* the coarse maximum is taken at a cell of the coarse pass that is a
     maximum of the coarse pass *)
  assert (Hj0 : ((0 <= j0 < n)%Z /\ (j0 mod 10 = 0)%Z)
                /\ (forall j, (0 <= j < n)%Z -> (j mod 10 = 0)%Z -> f j <= f j0)
                /\ p <= f m).
  { destruct C3 as [C3 | [C3 C4]].
    - injection C3 as -> ->. split; [split; [lia | reflexivity] |]. split.
      + intros j Hj Hmod. apply Rle_trans with 0; [| exact Hf0].
        apply C2. apply in_range_10_iff. now split.
      + apply Rle_trans with (f 0%Z); [exact Hf0 | apply Hmax; lia].
    - split; [now apply in_range_10_iff |]. split.
      + intros j Hj Hmod.
        assert (Hx : dist (cell_center min_val width j) <= p)
          by (apply C2; apply in_range_10_iff; now split).
        unfold f. lra.
      + assert (Hx : f j0 <= f m) by (apply Hmax; now apply in_range_10 in C3).
        unfold f in *. lra. }
  destruct Hj0 as ([Hj0 Hmod0] & Hbest & Hpm).
  (* hence it is within 9 cells of the peak *)
  assert (Hnear : (m - 9 <= j0 <= m + 9)%Z).
  { split.
    - destruct (Z_le_gt_dec (m - 9) j0) as [H | H]; [exact H | exfalso].
      assert (Hlt : f j0 < f (j0 + 10)%Z) by (apply Hup; lia).
      assert (Hle : f (j0 + 10)%Z <= f j0).
      { apply Hbest; [lia |]. rewrite <- Zplus_mod_idemp_l, Hmod0. reflexivity. }
      lra.
    - destruct (Z_le_gt_dec j0 (m + 9)) as [H | H]; [exact H | exfalso].
      assert (Hlt : f j0 < f (j0 - 10)%Z) by (apply Hdown; lia).
      assert (Hle : f (j0 - 10)%Z <= f j0).
      { apply Hbest; [lia |]. rewrite <- Zminus_mod_idemp_l, Hmod0. reflexivity. }
      lra. }
  unfold fine_scan.
  destruct (fine_fold_facts dist min_val width
              (Py.range (Z.max (j0 - 9) 0) (Z.min (j0 + 10) n) 1) p)
    as (F1 & F2 & F3).
  fold f in F2, F3.
  assert (Hge : f m <= fold_left (fine_step dist min_val width)
                         (Py.range (Z.max (j0 - 9) 0) (Z.min (j0 + 10) n) 1) p).
  { apply F2. apply in_range_unit. lia. }
  assert (Hle : fold_left (fine_step dist min_val width)
                  (Py.range (Z.max (j0 - 9) 0) (Z.min (j0 + 10) n) 1) p <= f m).
  { destruct F3 as [-> | (k & Hk & ->)]; [exact Hpm |].
    apply Hmax. apply in_range_unit in Hk. lia. }
  lra.
Qed.

Lemma scan_finds_peak_witness :
  fine_scan (fun x => x) 0 1 25 (coarse_scan (fun x => x) 0 1 25)
  = cell_center 0 1 24.
Proof.
  apply (scan_finds_peak (fun x => x) 0 1 25 24).
  - split; [lia |]. split.
    + intros i j Hij _. unfold cell_center.
      assert (IZR i < IZR j) by (apply IZR_lt; lia). lra.
    + intros i j Hij Hj. lia.
  - unfold cell_center. lra.
Defined.

(** X8.  The only exception that [rejection_sample] raises is the
    [ZeroDivisionError] of [float(max_val - min_val) / n_bins], and it raises
    it exactly when [n_bins] is 0, before any draw is taken. *)
Theorem rejection_sample_raises_iff
        (draws : nat -> R) (dist : R -> R) (min_val max_val : R) (n : Z)
        (fuel pos : nat) (e : Py.error) :
  rejection_sample draws dist min_val max_val n fuel pos = Raise e
  <-> n = 0%Z /\ e = ZeroDivisionError.
Proof.
  split.
  - intros H. destruct (Z.eq_dec n 0) as [-> | Hn].
    + rewrite rejection_sample_zero_bins in H. injection H as <-. now split.
    + exfalso. revert H. now apply rejection_sample_no_raise.
  - intros [-> ->]. apply rejection_sample_zero_bins.
Qed.

(** The loop does not depend on the bound on its iterations once it has
    returned. *)
Lemma accept_loop_more_fuel (draws : nat -> R) (dist : R -> R)
      (min_val max_val p_max : R) (fuel fuel' pos : nat) (r : R * nat) :
  (fuel <= fuel')%nat ->
  accept_loop draws fuel dist min_val max_val p_max pos = Done r ->
  accept_loop draws fuel' dist min_val max_val p_max pos = Done r.
Proof.
  revert fuel' pos. induction fuel as [| fuel IH]; intros fuel' pos Hle H.
  - discriminate H.
  - destruct fuel' as [| fuel']; [lia |].
    cbn [accept_loop] in *. unfold Py.bind, Py.random in *.
    destruct (Rlt_dec (p_max * draws (S pos))
                      (dist (min_val + (max_val - min_val) * draws pos)))
      as [_ | _]; [exact H |].
    apply IH; [lia | exact H].
Qed.

Lemma rejection_sample_mono (draws : nat -> R) (dist : R -> R)
      (min_val max_val : R) (n : Z) (fuel fuel' pos : nat) (r : R * nat) :
  (fuel <= fuel')%nat ->
  rejection_sample draws dist min_val max_val n fuel pos = Done r ->
  rejection_sample draws dist min_val max_val n fuel' pos = Done r.
Proof.
  intros Hle H. destruct (Z.eq_dec n 0) as [-> | Hn].
  - rewrite rejection_sample_zero_bins in H. discriminate H.
  - rewrite rejection_sample_unfold in * by assumption. cbv zeta in *.
    eapply accept_loop_more_fuel; eassumption.
Qed.

(** A value that [rejection_sample] returns within [fuel] iterations of
    its loop is returned, with the same number of draws consumed, under every
    larger bound: the result of a finished call does not depend on the
    bound. *)
Theorem rejection_sample_more_fuel
        (draws : nat -> R) (dist : R -> R) (min_val max_val : R) (n : Z)
        (fuel fuel' pos : nat) (r : R * nat) :
  (fuel <= fuel')%nat ->
  rejection_sample draws dist min_val max_val n fuel pos = Done r ->
  rejection_sample draws dist min_val max_val n fuel' pos = Done r.
Proof.
  intros Hle H. destruct (Z.eq_dec n 0) as [-> | Hn].
  - rewrite rejection_sample_zero_bins in H. discriminate H.
  - rewrite rejection_sample_unfold in * by assumption. cbv zeta in *.
    eapply accept_loop_more_fuel; eassumption.
Qed.

Lemma rejection_sample_more_fuel_witness :
  rejection_sample Demo.draws (fun _ => 1) (-1) 1 200 7 0%nat
  = Done (-1 + (1 - -1) * (1 / 2), 2%nat).
Proof.
  apply (rejection_sample_more_fuel Demo.draws (fun _ => 1) (-1) 1 200 1 7 0);
    [lia | exact rejection_sample_demo].
Defined.

(** X10.  A neutrino energy that [get_eNu] returns lies within the
    [bounds_eNu] of the channel, when these are in order; [get_eNu] raises
    no exception. *)
Theorem get_eNu_within_bounds
        (ch : Channel) (flux : FluxModule) (num : Numerics) (draws : nat -> R)
        (normalization time : R) (fuel pos : nat) :
  unit_draws draws -> fst (bounds_eNu ch) <= snd (bounds_eNu ch) ->
  (forall eNu pos',
     get_eNu ch flux num draws normalization time fuel pos = Done (eNu, pos') ->
     within (bounds_eNu ch) eNu)
  /\ forall e,
       get_eNu ch flux num draws normalization time fuel pos <> Raise e.
Proof.
  intros Hd Hb. split.
  - intros eNu pos' H. unfold get_eNu in H.
    eapply rejection_sample_in_range; eassumption.
  - intros e. unfold get_eNu. apply rejection_sample_no_raise. lia.
Qed.

Lemma get_eNu_within_bounds_witness :
  exists eNu,
    get_eNu Demo.c12e (Demo.flux 0 3 [0; 3]) (Demo.numerics true) Demo.draws 1
            0.5 1 0%nat = Done (eNu, 2%nat)
    /\ within C12e.bounds_eNu eNu.
Proof.
  eexists. split.
  - apply (get_eNu_flat Demo.c12e (Demo.flux 0 3 [0; 3]) (Demo.numerics true)
             Demo.draws 1 1 demo_draws_unit ltac:(lra) demo_bounds_ordered
             ltac:(reflexivity) 0.5 0 0).
  - apply (proj1 (get_eNu_within_bounds Demo.c12e (Demo.flux 0 3 [0; 3])
                    (Demo.numerics true) Demo.draws 1 0.5 1 0
                    demo_draws_unit demo_bounds_ordered) _ 2%nat).
    apply (get_eNu_flat Demo.c12e (Demo.flux 0 3 [0; 3]) (Demo.numerics true)
             Demo.draws 1 1 demo_draws_unit ltac:(lra) demo_bounds_ordered
             ltac:(reflexivity) 0.5 0 0).
Defined.

(** X11.  With the angular distribution of c12e, which is the constant 0.5
    on [[-1, 1]], [get_direction] accepts its first candidate: it takes
    exactly three draws and returns the direction with cosine
    [2 * r1 - 1] and azimuth [2 * pi * r3]. *)
Theorem get_direction_c12e
        (targets : R) (pid : Z) (draws : nat -> R) (eNu : R) (fuel pos : nat) :
  unit_draws draws ->
  let cosT := -1 + (1 - -1) * draws pos in
  let sinT := sin (Ratan.acos cosT) in
  let phi := 2 * PI * draws (S (S pos)) in
  get_direction (C12e.channel targets pid) draws eNu (S fuel) pos
  = Done ((sinT * cos phi, sinT * sin phi, cosT), S (S (S pos)))
  /\ cosT = 2 * draws pos - 1.
Proof.
  intros Hd cosT sinT phi. split; [| unfold cosT; lra].
  unfold get_direction. cbv zeta. unfold Py.bind at 1.
  rewrite (rejection_sample_flat draws _ (-1) 1 0.5); try assumption;
    try lia; try lra.
  - unfold Py.bind at 1. unfold Py.lift. rewrite acos_Done.
    + reflexivity.
    + destruct (Hd pos) as [H0 H1]. split; nra.
  - intros x Hx. cbn. unfold C12e.dSigma_dCosT.
    destruct (Rgt_dec (Rabs x) 1) as [H | _]; [| reflexivity].
    exfalso. assert (Rabs x <= 1) by (apply Rabs_le; lra).
    unfold Rgt in H. lra.
Qed.

Lemma get_direction_c12e_witness :
  get_direction (C12e.channel 1 11) Demo.draws 20 1 0%nat
  = Done ((sin (Ratan.acos (-1 + (1 - -1) * Demo.draws 0))
           * cos (2 * PI * Demo.draws 2),
           sin (Ratan.acos (-1 + (1 - -1) * Demo.draws 0))
           * sin (2 * PI * Demo.draws 2),
           -1 + (1 - -1) * Demo.draws 0), 3%nat).
Proof.
  exact (proj1 (get_direction_c12e 1 11 Demo.draws 20 0 0 demo_draws_unit)).
Defined.

(** ** The records that [main] writes *)

Lemma Forall2_nth_error_r {A B : Type} (P : A -> B -> Prop)
      (l1 : list A) (l2 : list B) (k : nat) (b : B) :
  Forall2 P l1 l2 -> nth_error l2 k = Some b ->
  exists a, nth_error l1 k = Some a /\ P a b.
Proof.
  intros H. revert k. induction H as [| x y l1 l2 Hxy _ IH]; intros k Hk.
  - destruct k; discriminate Hk.
  - destruct k as [| k].
    + injection Hk as <-. now exists x.
    + now apply IH.
Qed.

Lemma nth_error_cells (n : Z) (k : nat) (i : Z) :
  nth_error (Py.range 0 n 1) k = Some i -> i = Z.of_nat k /\ (0 <= i < n)%Z.
Proof.
  intros H. assert (Hin : In i (Py.range 0 n 1)) by (eapply nth_error_In; eauto).
  apply in_range_unit in Hin. split; [| exact Hin].
  rewrite range_cells in H. unfold Spec.cells in H.
  rewrite nth_error_map in H.
  destruct (nth_error (seq 0 (Z.to_nat n)) k) as [k' |] eqn:Hk; [| discriminate H].
  injection H as <-.
  assert (Hlt : (k < List.length (seq 0 (Z.to_nat n)))%nat)
    by (apply nth_error_Some; congruence).
  rewrite length_seq in Hlt.
  rewrite nth_error_nth' with (d := 0%nat) in Hk by (now rewrite length_seq).
  rewrite seq_nth in Hk by assumption. injection Hk as <-. reflexivity.
Qed.

Section RecordFacts.

Variable ch : Channel.
Variable flux : FluxModule.
Variable num : Numerics.
Variable draws : nat -> R.
Variable normalization : R.

Lemma gen_events_generated (count : nat) (starttime : R) (i : Z)
      (times : list R) (fuel : nat) (outfile : list line) (pos : nat)
      (outfile' : list line) (pos' : nat) :
  gen_events ch flux num draws normalization count starttime i times fuel
             outfile pos = Done (outfile', pos') ->
  exists chunk,
    outfile' = outfile ++ chunk
    /\ List.length chunk = count
    /\ Forall (generated ch flux num draws normalization times fuel starttime i)
              chunk.
Proof.
  revert outfile pos. induction count as [| count IH]; intros outfile pos H.
  - cbn in H. injection H as <- <-. exists []. rewrite app_nil_r.
    repeat split. constructor.
  - cbn [gen_events] in H.
    apply bind_Done in H. destruct H as (r & pos1 & Hr & H).
    unfold Py.random in Hr. injection Hr as <- <-.
    apply bind_Done in H. destruct H as (time & pos2 & Ht & H).
    apply lift_Done in Ht. destruct Ht as [Ht ->].
    apply bind_Done in H. destruct H as (eNu & pos3 & He & H).
    apply bind_Done in H. destruct H as ([[dirx diry] dirz] & pos4 & Hdir & H).
    apply IH in H. destruct H as (chunk & -> & Hlen & Hall).
    eexists (_ :: chunk). rewrite <- app_assoc. cbn [app].
    repeat split.
    + cbn. now rewrite Hlen.
    + constructor; [| assumption].
      exists pos, time, eNu, pos3, dirx, diry, dirz, pos4. repeat split; assumption.
Qed.

Lemma gen_bins_generated (bins : list Z) (starttime : R) (times : list R)
      (counts : list nat) (fuel : nat) (outfile : list line) (pos : nat)
      (outfile' : list line) (pos' : nat) :
  gen_bins ch flux num draws normalization bins starttime times counts fuel
           outfile pos = Done (outfile', pos') ->
  exists chunks,
    outfile' = outfile ++ concat chunks
    /\ Forall2 (fun i chunk =>
                  Py.index counts i = Done (List.length chunk)
                  /\ Forall (generated ch flux num draws normalization times
                                       fuel starttime i) chunk)
               bins chunks.
Proof.
  revert outfile pos. induction bins as [| i bins IH]; intros outfile pos H.
  - cbn in H. injection H as <- <-. exists []. cbn. rewrite app_nil_r.
    split; constructor.
  - cbn [gen_bins] in H.
    apply bind_Done in H. destruct H as (count & pos1 & Hc & H).
    apply lift_Done in Hc. destruct Hc as [Hc ->].
    apply bind_Done in H. destruct H as (out1 & pos2 & Hev & H).
    apply gen_events_generated in Hev. destruct Hev as (chunk & -> & Hlen & Hall).
    apply IH in H. destruct H as (chunks & -> & Hrest).
    exists (chunk :: chunks). cbn [concat]. rewrite app_assoc. split.
    + reflexivity.
    + constructor; [| assumption]. split; [| assumption]. now rewrite Hlen.
Qed.

(** A finished run: the output file in chunks, one per bin, each record
    with the calls that produced it. *)
Lemma main_generated (input detector : String.string) (st en : option R)
      (fuel : nat) (outfile : list line) (wrote : nat) :
  main ch flux num draws normalization input detector st en fuel
  = Done (outfile, wrote) ->
  exists starttime endtime raw_times mass interp chunks,
    parse_input flux input st en = (starttime, endtime, raw_times)
    /\ detectors detector = Done mass
    /\ pchip num raw_times
         (raw_nevts ch flux num normalization
            (targets_per_molecule ch * molecules_per_kt * mass) raw_times)
       = Some interp
    /\ wrote = list_sum (binned_nevt num starttime endtime interp)
    /\ outfile = concat chunks
    /\ Forall2 (fun i chunk =>
                  Py.index (binned_nevt num starttime endtime interp) i
                  = Done (List.length chunk)
                  /\ Forall (generated ch flux num draws normalization
                               (binned_t starttime (n_bins (endtime - starttime)))
                               fuel starttime i) chunk)
               (Py.range 0 (n_bins (endtime - starttime)) 1) chunks.
Proof.
  intros Hrun. apply main_Done in Hrun.
  destruct Hrun as (starttime & endtime & raw_times & mass & interp
                    & Hp & Hd & Hi & Hgen).
  unfold event_generation in Hgen. cbv zeta in Hgen.
  fold (binned_nevt num starttime endtime interp) in Hgen.
  unfold Py.obind in Hgen.
  destruct (gen_bins _ _ _ _ _ _ _ _ _ _ _ _) as [[out pos'] | e |] eqn:Hg;
    try discriminate Hgen.
  injection Hgen as <- <-.
  apply gen_bins_generated in Hg. destruct Hg as (chunks & -> & Hall).
  exists starttime, endtime, raw_times, mass, interp, chunks.
  repeat split; assumption.
Qed.

(** Every record of a finished run was generated for some bin. *)
Lemma main_records (input detector : String.string) (st en : option R)
      (fuel : nat) (outfile : list line) (wrote : nat) :
  main ch flux num draws normalization input detector st en fuel
  = Done (outfile, wrote) ->
  exists starttime endtime raw_times,
    parse_input flux input st en = (starttime, endtime, raw_times)
    /\ Forall (fun l =>
                 exists i, (0 <= i < n_bins (endtime - starttime))%Z
                   /\ generated ch flux num draws normalization
                        (binned_t starttime (n_bins (endtime - starttime)))
                        fuel starttime i l)
              outfile.
Proof.
  intros Hrun. apply main_generated in Hrun.
  destruct Hrun as (starttime & endtime & raw_times & mass & interp & chunks
                    & Hp & _ & _ & _ & -> & Hall).
  exists starttime, endtime, raw_times. split; [exact Hp |].
  apply Forall_forall. intros l Hl. apply in_concat in Hl.
  destruct Hl as (chunk & Hc & Hl).
  apply In_nth_error in Hc. destruct Hc as [k Hk].
  destruct (Forall2_nth_error_r _ _ _ _ _ Hall Hk) as (i & Hi & _ & Hgen).
  apply nth_error_cells in Hi. destruct Hi as [_ Hi].
  exists i. split; [exact Hi |].
  rewrite Forall_forall in Hgen. now apply Hgen.
Qed.

End RecordFacts.

(** X12.  Every record of a finished run carries the particle id of the
    channel and a direction of Euclidean norm 1 whose third component, the
    cosine of the scattering angle, lies in [[-1, 1]]. *)
Theorem records_pid_and_direction
        (ch : Channel) (flux : FluxModule) (num : Numerics) (draws : nat -> R)
        (normalization : R) (input detector : String.string)
        (st en : option R) (fuel : nat) (outfile : list line) (wrote : nat) :
  unit_draws draws ->
  main ch flux num draws normalization input detector st en fuel
  = Done (outfile, wrote) ->
  Forall (fun l =>
            line_pid l = pid ch
            /\ norm3 (line_dirx l, line_diry l, line_dirz l) = 1
            /\ -1 <= line_dirz l <= 1)
         outfile.
Proof.
  intros Hd Hrun. apply main_records in Hrun.
  destruct Hrun as (starttime & endtime & raw_times & _ & Hall).
  eapply Forall_impl; [| exact Hall]. intros l (i & _ & Hgen).
  destruct Hgen as (pos & time & eNu & pos1 & dirx & diry & dirz & pos2
                    & _ & _ & Hdir & ->).
  cbn [line_pid line_dirx line_diry line_dirz].
  apply get_direction_Done in Hdir; [| assumption].
  destruct Hdir as (cosT & phi & Hc & _ & Hv). injection Hv as -> -> ->.
  split; [reflexivity |]. split; [now apply direction_unit | exact Hc].
Qed.

Lemma records_pid_and_direction_witness :
  exists outfile,
    main Demo.c12e (Demo.flux 0 3 [0; 3]) (Demo.numerics true) Demo.draws 1
         "infile_eb.txt" "SuperK" None None 1 = Done (outfile, 6%nat)
    /\ Forall (fun l => line_pid l = 11%Z
                        /\ norm3 (line_dirx l, line_diry l, line_dirz l) = 1
                        /\ -1 <= line_dirz l <= 1) outfile.
Proof.
  destruct (demo_run 0) as [outfile Hrun].
  exists outfile. split; [exact Hrun |].
  exact (records_pid_and_direction _ _ _ _ _ _ _ _ _ _ _ _ demo_draws_unit Hrun).
Defined.

(** X13.  When the [bounds_eNu] of the channel are in order, the energy of
    every record of a finished run is [get_eE(eNu, dirz)] for a neutrino
    energy [eNu] within [bounds_eNu] and the third component [dirz] of the
    direction of that record. *)
Theorem records_energy
        (ch : Channel) (flux : FluxModule) (num : Numerics) (draws : nat -> R)
        (normalization : R) (input detector : String.string)
        (st en : option R) (fuel : nat) (outfile : list line) (wrote : nat) :
  unit_draws draws -> fst (bounds_eNu ch) <= snd (bounds_eNu ch) ->
  main ch flux num draws normalization input detector st en fuel
  = Done (outfile, wrote) ->
  Forall (fun l =>
            exists eNu, within (bounds_eNu ch) eNu
                        /\ line_ene l = get_eE ch eNu (line_dirz l))
         outfile.
Proof.
  intros Hd Hb Hrun. apply main_records in Hrun.
  destruct Hrun as (starttime & endtime & raw_times & _ & Hall).
  eapply Forall_impl; [| exact Hall]. intros l (i & _ & Hgen).
  destruct Hgen as (pos & time & eNu & pos1 & dirx & diry & dirz & pos2
                    & _ & HeNu & _ & ->).
  cbn [line_ene line_dirz]. exists eNu. split; [| reflexivity].
  unfold get_eNu in HeNu. eapply rejection_sample_in_range; eassumption.
Qed.

Lemma records_energy_witness :
  exists outfile,
    main Demo.c12e (Demo.flux 0 3 [0; 3]) (Demo.numerics true) Demo.draws 1
         "infile_eb.txt" "SuperK" None None 1 = Done (outfile, 6%nat)
    /\ Forall (fun l => exists eNu, within C12e.bounds_eNu eNu
                          /\ line_ene l = C12e.get_eE eNu (line_dirz l)) outfile.
Proof.
  destruct (demo_run 0) as [outfile Hrun].
  exists outfile. split; [exact Hrun |].
  exact (records_energy _ _ _ _ _ _ _ _ _ _ _ _ demo_draws_unit
           demo_bounds_ordered Hrun).
Defined.

(** X14.  With the c12e channel every record of a finished run has an
    energy between 0.8 and [100 - e_thr]: the electron is above the
    Cherenkov threshold. *)
Theorem c12e_records_energy_range
        (targets : R) (pid : Z) (flux : FluxModule) (num : Numerics)
        (draws : nat -> R) (normalization : R)
        (input detector : String.string) (st en : option R) (fuel : nat)
        (outfile : list line) (wrote : nat) :
  unit_draws draws ->
  main (C12e.channel targets pid) flux num draws normalization input detector
       st en fuel = Done (outfile, wrote) ->
  Forall (fun l => 0.8 <= line_ene l <= 100 - C12e.e_thr) outfile.
Proof.
  intros Hd Hrun. apply main_records in Hrun.
  destruct Hrun as (starttime & endtime & raw_times & _ & Hall).
  eapply Forall_impl; [| exact Hall]. intros l (i & _ & Hgen).
  destruct Hgen as (pos & time & eNu & pos1 & dirx & diry & dirz & pos2
                    & _ & HeNu & _ & ->).
  cbn [line_ene get_eE C12e.channel]. unfold get_eNu in HeNu.
  apply rejection_sample_in_range in HeNu; [| assumption |].
  - cbn in HeNu. unfold C12e.get_eE. lra.
  - cbn. unfold C12e.e_thr. lra.
Qed.

Lemma c12e_records_energy_range_witness :
  exists outfile,
    main (C12e.channel 1 11) (Demo.flux 0 3 [0; 3]) (Demo.numerics true)
         Demo.draws 1 "infile_eb.txt" "SuperK" None None 1
    = Done (outfile, 6%nat)
    /\ Forall (fun l => 0.8 <= line_ene l <= 100 - C12e.e_thr) outfile.
Proof.
  destruct (demo_run 0) as [outfile Hrun].
  exists outfile. split; [exact Hrun |].
  exact (c12e_records_energy_range 1 11 _ _ _ _ _ _ _ _ _ _ _
           demo_draws_unit Hrun).
Defined.

(** ** Times, windows and bins *)

Lemma int_nonpos (x : R) : x < 0 -> (Py.int x <= 0)%Z.
Proof.
  intros Hx. unfold Py.int. destruct (Rle_dec 0 x) as [H | _]; [lra |].
  destruct (base_Int_part (- x)) as [_ H2].
  assert (H : (-1 < Int_part (- x))%Z) by (apply lt_IZR; lra). lia.
Qed.

(** A bin of the partition ends inside the window. *)
Lemma bin_inside_window (duration : R) (i : Z) :
  (0 <= i < n_bins duration)%Z -> IZR i + 1 <= duration.
Proof.
  intros [Hi0 Hin]. unfold n_bins, bin_width in Hin.
  replace (duration / 1) with duration in Hin by field.
  destruct (Rle_dec 0 duration) as [Hd | Hd].
  - destruct (int_floor duration Hd) as [Hfl _].
    assert (IZR i + 1 <= IZR (Py.int duration)).
    { rewrite <- plus_IZR. apply IZR_le. lia. }
    lra.
  - assert (Py.int duration <= 0)%Z by (apply int_nonpos; lra). lia.
Qed.

Lemma n_bins_short (duration : R) : duration < 1 -> (n_bins duration <= 0)%Z.
Proof.
  intros Hd. destruct (Z_le_gt_dec (n_bins duration) 0) as [H | H]; [exact H |].
  assert (Hb := bin_inside_window duration 0 ltac:(lia)). lra.
Qed.

(** X17.  A window shorter than one bin, empty or reversed
    ([endtime - starttime < 1]) has no bin: once the detector is known and
    the interpolant is built, [main] finishes with an empty output file and
    a reported total of 0, without a draw and whatever the bound on the
    loops. *)
Theorem short_window_writes_nothing
        (ch : Channel) (flux : FluxModule) (num : Numerics) (draws : nat -> R)
        (normalization : R) (input detector : String.string)
        (st en : option R) (fuel : nat) (starttime endtime : R)
        (raw_times : list R) (mass : R) (interp : R -> R) :
  keeps_shape num ->
  parse_input flux input st en = (starttime, endtime, raw_times) ->
  detectors detector = Done mass ->
  pchip num raw_times
    (raw_nevts ch flux num normalization
       (targets_per_molecule ch * molecules_per_kt * mass) raw_times)
  = Some interp ->
  endtime - starttime < 1 ->
  Py.range 0 (n_bins (endtime - starttime)) 1 = []
  /\ main ch flux num draws normalization input detector st en fuel
     = Done ([], 0%nat).
Proof.
  intros Hshape Hp Hd Hi Hshort.
  assert (Hn := n_bins_short _ Hshort).
  assert (Hr : Py.range 0 (n_bins (endtime - starttime)) 1 = []).
  { rewrite range_unit.
    replace (Z.to_nat (n_bins (endtime - starttime) - 0)) with 0%nat by lia.
    reflexivity. }
  split; [exact Hr |].
  unfold main. rewrite Hp, Hd. cbn [Py.obind]. rewrite Hi.
  unfold event_generation. cbv zeta.
  fold (binned_nevt num starttime endtime interp).
  assert (Hlen : List.length (binned_nevt num starttime endtime interp) = 0%nat).
  { rewrite binned_nevt_length by assumption. lia. }
  rewrite Hr.
  destruct (binned_nevt num starttime endtime interp); [| discriminate Hlen].
  reflexivity.
Qed.

Lemma short_window_writes_nothing_witness :
  main Demo.c12e (Demo.flux 5 2.5 [0; 9]) (Demo.numerics true) Demo.draws 1
       "infile_eb.txt" "SuperK" None None 3 = Done ([], 0%nat).
Proof.
  apply (short_window_writes_nothing Demo.c12e (Demo.flux 5 2.5 [0; 9])
           (Demo.numerics true) Demo.draws 1 "infile_eb.txt" "SuperK"
           None None 3 5 2.5 [0; 9] 32.5 (fun _ => 2)
           (demo_shape true) eq_refl eq_refl eq_refl ltac:(lra)).
Defined.



(** ** Exceptions of [main] *)

Lemma detectors_cases (detector : String.string) :
  (detector = "SuperK" /\ detectors detector = Done 32.5)
  \/ (detector = "HyperK" /\ detectors detector = Done 220)
  \/ (detector <> "SuperK" /\ detector <> "HyperK"
      /\ detectors detector = Raise KeyError).
Proof.
  unfold detectors.
  destruct (String.eqb detector "SuperK") eqn:E1.
  - left. apply String.eqb_eq in E1. now split.
  - destruct (String.eqb detector "HyperK") eqn:E2.
    + right. left. apply String.eqb_eq in E2. now split.
    + right. right. apply String.eqb_neq in E1. apply String.eqb_neq in E2.
      now repeat split.
Qed.

(** X19.  The table lookup [detectors[detector]] knows "SuperK" (32.5 kt)
    and "HyperK" (220 kt) and raises [KeyError] for every other name; a run
    of [main] that reaches the lookup with another name ends with this
    [KeyError], whatever the other arguments, before any rate is
    integrated. *)
Theorem unknown_detector_KeyError
        (ch : Channel) (flux : FluxModule) (num : Numerics) (draws : nat -> R)
        (normalization : R) (input detector : String.string)
        (st en : option R) (fuel : nat) :
  (detectors detector = Raise KeyError
   <-> detector <> "SuperK" /\ detector <> "HyperK")
  /\ (detector = "SuperK" -> detectors detector = Done 32.5)
  /\ (detector = "HyperK" -> detectors detector = Done 220)
  /\ (detector <> "SuperK" -> detector <> "HyperK" ->
      main ch flux num draws normalization input detector st en fuel
      = Raise KeyError).
Proof.
  assert (Hmain : detectors detector = Raise KeyError ->
            main ch flux num draws normalization input detector st en fuel
            = Raise KeyError).
  { intros Hdet. unfold main.
    destruct (parse_input flux input st en) as [[starttime endtime] raw].
    rewrite Hdet. reflexivity. }
  destruct (detectors_cases detector)
    as [[Hs Hdet] | [[Hh Hdet] | (H1 & H2 & Hdet)]].
  - split; [| split; [| split]].
    + split.
      * rewrite Hdet. discriminate.
      * intros [H _]. contradiction.
    + intros _. exact Hdet.
    + intros Hh. rewrite Hh in Hs. discriminate Hs.
    + intros H. contradiction.
  - split; [| split; [| split]].
    + split.
      * rewrite Hdet. discriminate.
      * intros [_ H]. contradiction.
    + intros Hs. rewrite Hs in Hh. discriminate Hh.
    + intros _. exact Hdet.
    + intros _ H. contradiction.
  - split; [| split; [| split]].
    + split; [intros _; now split | intros _; exact Hdet].
    + intros H. contradiction.
    + intros H. contradiction.
    + intros _ _. now apply Hmain.
Qed.

(** X20.  [get_direction] cannot fail on its own operations: the division by
    [n_bins] in [rejection_sample] has the divisor 200, and [math.acos]
    receives a cosine that lies in [[-1, 1]], so neither the
    [ZeroDivisionError] nor the domain error is raised. *)
Theorem get_direction_never_raises
        (ch : Channel) (draws : nat -> R) (eNu : R) (fuel pos : nat)
        (e : Py.error) :
  unit_draws draws ->
  get_direction ch draws eNu fuel pos <> Raise e
  /\ forall cosT pos',
       rejection_sample draws (fun x => dSigma_dCosT ch eNu x) (-1) 1 200
                        fuel pos = Done (cosT, pos') ->
       Py.acos cosT = Done (Ratan.acos cosT).
Proof.
  intros Hd. split.
  - now apply get_direction_no_raise.
  - intros cosT pos' Hrs. apply acos_Done.
    apply rejection_sample_in_range in Hrs; [exact Hrs | assumption | lra].
Qed.

Lemma get_direction_never_raises_witness :
  get_direction Demo.c12e Demo.draws 20 5 0%nat <> Raise ValueError.
Proof.
  exact (proj1 (get_direction_never_raises Demo.c12e Demo.draws 20 5 0
                  ValueError demo_draws_unit)).
Defined.

(** ** The bound on the loops *)

Section MoreFuel.

Variable ch : Channel.
Variable flux : FluxModule.
Variable num : Numerics.
Variable draws : nat -> R.
Variable normalization : R.
Variables fuel fuel' : nat.

Hypothesis more : (fuel <= fuel')%nat.

Lemma get_eNu_more_fuel (time : R) (pos : nat) (r : R * nat) :
  get_eNu ch flux num draws normalization time fuel pos = Done r ->
  get_eNu ch flux num draws normalization time fuel' pos = Done r.
Proof. unfold get_eNu. now apply rejection_sample_mono. Qed.

Lemma get_direction_more_fuel (eNu : R) (pos : nat) (r : R * R * R * nat) :
  get_direction ch draws eNu fuel pos = Done r ->
  get_direction ch draws eNu fuel' pos = Done r.
Proof.
  unfold get_direction. intros H.
  apply bind_Done in H. destruct H as (cosT & pos1 & Hrs & H).
  unfold Py.bind at 1.
  rewrite (rejection_sample_mono _ _ _ _ _ _ _ _ _ more Hrs). exact H.
Qed.

Lemma gen_events_more_fuel (count : nat) (starttime : R) (i : Z)
      (times : list R) (outfile : list line) (pos : nat)
      (r : list line * nat) :
  gen_events ch flux num draws normalization count starttime i times fuel
             outfile pos = Done r ->
  gen_events ch flux num draws normalization count starttime i times fuel'
             outfile pos = Done r.
Proof.
  revert outfile pos. induction count as [| count IH]; intros outfile pos H.
  - exact H.
  - cbn [gen_events] in *.
    apply bind_Done in H. destruct H as (r0 & pos1 & Hr & H).
    unfold Py.bind at 1. rewrite Hr.
    apply bind_Done in H. destruct H as (time & pos2 & Ht & H).
    unfold Py.bind at 1. rewrite Ht.
    apply bind_Done in H. destruct H as (eNu & pos3 & He & H).
    unfold Py.bind at 1. rewrite (get_eNu_more_fuel _ _ _ He).
    apply bind_Done in H. destruct H as ([[dirx diry] dirz] & pos4 & Hdir & H).
    unfold Py.bind at 1. rewrite (get_direction_more_fuel _ _ _ Hdir).
    now apply IH.
Qed.

Lemma gen_bins_more_fuel (bins : list Z) (starttime : R) (times : list R)
      (counts : list nat) (outfile : list line) (pos : nat)
      (r : list line * nat) :
  gen_bins ch flux num draws normalization bins starttime times counts fuel
           outfile pos = Done r ->
  gen_bins ch flux num draws normalization bins starttime times counts fuel'
           outfile pos = Done r.
Proof.
  revert outfile pos. induction bins as [| i bins IH]; intros outfile pos H.
  - exact H.
  - cbn [gen_bins] in *.
    apply bind_Done in H. destruct H as (count & pos1 & Hc & H).
    unfold Py.bind at 1. rewrite Hc.
    apply bind_Done in H. destruct H as (out1 & pos2 & Hev & H).
    unfold Py.bind at 1. rewrite (gen_events_more_fuel _ _ _ _ _ _ _ Hev).
    now apply IH.
Qed.

End MoreFuel.

(** The result of a finished run of [main] does not depend on the
    bound on the iterations of the sampler: a run that finishes under one
    bound finishes with the same output file and the same reported total
    under every larger bound. *)
Theorem main_more_fuel
        (ch : Channel) (flux : FluxModule) (num : Numerics) (draws : nat -> R)
        (normalization : R) (input detector : String.string)
        (st en : option R) (fuel fuel' : nat) (res : list line * nat) :
  (fuel <= fuel')%nat ->
  main ch flux num draws normalization input detector st en fuel = Done res ->
  main ch flux num draws normalization input detector st en fuel' = Done res.
Proof.
  intros Hle H. unfold main in *.
  destruct (parse_input flux input st en) as [[starttime endtime] raw_times].
  destruct (detectors detector) as [mass | e |]; try discriminate H.
  cbn [Py.obind] in *.
  destruct (pchip num raw_times _) as [interp |]; [| discriminate H].
  unfold event_generation in *. cbv zeta in *. unfold Py.obind in *.
  destruct (gen_bins ch flux num draws normalization _ _ _ _ fuel _ _)
    as [[out pos'] | e |] eqn:Hg; try discriminate H.
  now rewrite (gen_bins_more_fuel _ _ _ _ _ _ _ Hle _ _ _ _ _ _ _ Hg).
Qed.

Lemma main_more_fuel_witness :
  exists outfile,
    main Demo.c12e (Demo.flux 0 3 [0; 3]) (Demo.numerics true) Demo.draws 1
         "infile_eb.txt" "SuperK" None None 9 = Done (outfile, 6%nat).
Proof.
  destruct (demo_run 0) as [outfile Hrun].
  exists outfile.
  exact (main_more_fuel _ _ _ _ _ _ _ _ _ 1 9 _ ltac:(lia) Hrun).
Defined.

(** ** What the scans do not see *)

Lemma fold_left_ext_in {A B : Type} (g h : A -> B -> A) (l : list B) (a : A) :
  (forall x acc, In x l -> g acc x = h acc x) ->
  fold_left g l a = fold_left h l a.
Proof.
  revert a. induction l as [| x l IH]; intros a H; cbn [fold_left].
  - reflexivity.
  - rewrite H by (now left). apply IH. intros y acc Hy. apply H. now right.
Qed.

(** X9.  The estimate of the maximum depends on the density only through
    its values at the centres of the visited cells: two densities that agree
    on every 10th cell and on the cells within 9 of the coarse maximum get
    the same coarse maximum and the same estimate, whatever they do at the
    other cells. *)
Theorem estimate_sees_visited_cells_only
        (dist1 dist2 : R -> R) (min_val width : R) (n : Z) :
  let f1 := fun j => dist1 (cell_center min_val width j) in
  let f2 := fun j => dist2 (cell_center min_val width j) in
  (forall j, (0 <= j < n)%Z -> (j mod 10 = 0)%Z -> f1 j = f2 j) ->
  (forall j, (0 <= j < n)%Z ->
     (Z.abs (j - snd (coarse_scan dist1 min_val width n)) <= 9)%Z ->
     f1 j = f2 j) ->
  coarse_scan dist1 min_val width n = coarse_scan dist2 min_val width n
  /\ fine_scan dist1 min_val width n (coarse_scan dist1 min_val width n)
     = fine_scan dist2 min_val width n (coarse_scan dist2 min_val width n).
Proof.
  intros f1 f2 Hcoarse Hfine.
  assert (Hc : coarse_scan dist1 min_val width n
               = coarse_scan dist2 min_val width n).
  { unfold coarse_scan. apply fold_left_ext_in. intros j acc Hj.
    apply in_range_10_iff in Hj. destruct Hj as [Hj Hmod].
    unfold coarse_step. cbv zeta.
    change (dist1 (cell_center min_val width j)) with (f1 j).
    change (dist2 (cell_center min_val width j)) with (f2 j).
    now rewrite (Hcoarse j Hj Hmod). }
  split; [exact Hc |].
  rewrite <- Hc. destruct (coarse_scan dist1 min_val width n) as [p j0].
  cbn [snd] in Hfine. unfold fine_scan.
  apply fold_left_ext_in. intros j acc Hj.
  apply in_range_unit in Hj.
  unfold fine_step. cbv zeta.
  change (dist1 (cell_center min_val width j)) with (f1 j).
  change (dist2 (cell_center min_val width j)) with (f2 j).
  rewrite (Hfine j) by lia. reflexivity.
Qed.

(** A spike at the centre of cell 15 of 25 is missed: the estimate is the
    one of the zero density. *)
Lemma estimate_sees_visited_cells_only_witness :
  fine_scan Demo.spike 0 1 25 (coarse_scan Demo.spike 0 1 25) = 0
  /\ Demo.spike (cell_center 0 1 15) = 1.
Proof.
  assert (Hzero : coarse_scan (fun _ => 0) 0 1 25 = (0, 0%Z)).
  { unfold coarse_scan. apply coarse_fold_stable. intros j _. cbn [fst]. lra. }
  assert (Hoff : forall j : Z, j <> 15%Z -> 0 = Demo.spike (cell_center 0 1 j)).
  { intros j Hj. unfold Demo.spike, cell_center.
    destruct (Req_dec_T (0 + 1 * (IZR j + 0.5)) 15.5) as [E | _]; [| reflexivity].
    exfalso. apply Hj. apply eq_IZR. lra. }
  destruct (estimate_sees_visited_cells_only (fun _ => 0) Demo.spike 0 1 25)
    as [_ Hest].
  - intros j Hj Hmod. apply Hoff. intros ->. discriminate Hmod.
  - intros j Hj Hnear. rewrite Hzero in Hnear. cbn [snd] in Hnear.
    apply Hoff. lia.
  - split.
    + rewrite <- Hest. rewrite Hzero. unfold fine_scan.
      apply fine_fold_stable. intros j _. lra.
    + unfold Demo.spike, cell_center.
      destruct (Req_dec_T (0 + 1 * (15 + 0.5)) 15.5) as [_ | Hn];
        [reflexivity | exfalso; apply Hn; lra].
Defined.

(** X5.  The angular distribution of c12e is normalised: it is 0.5 on
    [[-1, 1]] and 0 outside, never negative, the same for every neutrino
    energy, and its Riemann integral over [[-1, 1]] is 1. *)
Theorem dSigma_dCosT_normalised (eNu : R) :
  (forall cosT, 0 <= C12e.dSigma_dCosT eNu cosT)
  /\ (forall cosT, C12e.dSigma_dCosT eNu cosT = 0.5 <-> -1 <= cosT <= 1)
  /\ (forall cosT, ~ -1 <= cosT <= 1 -> C12e.dSigma_dCosT eNu cosT = 0)
  /\ (forall eNu' cosT,
        C12e.dSigma_dCosT eNu cosT = C12e.dSigma_dCosT eNu' cosT)
  /\ exists pr0 : Riemann_integrable (C12e.dSigma_dCosT eNu) (-1) 1,
       forall pr : Riemann_integrable (C12e.dSigma_dCosT eNu) (-1) 1,
         RiemannInt pr = 1.
Proof.
  assert (Hin : forall x, -1 <= x <= 1 -> C12e.dSigma_dCosT eNu x = 0.5).
  { intros x Hx. unfold C12e.dSigma_dCosT.
    destruct (Rgt_dec (Rabs x) 1) as [H | _]; [| reflexivity].
    exfalso. assert (Rabs x <= 1) by (apply Rabs_le; lra).
    unfold Rgt in H. lra. }
  assert (Habs : forall x, ~ Rabs x > 1 -> -1 <= x <= 1).
  { intros x H. apply Rnot_gt_le in H.
    pose proof (Rle_abs x) as Hp. pose proof (Rle_abs (- x)) as Hm.
    rewrite Rabs_Ropp in Hm. lra. }
  split; [| split; [| split; [| split]]].
  - intros cosT. unfold C12e.dSigma_dCosT.
    destruct (Rgt_dec (Rabs cosT) 1); lra.
  - intros cosT. split; [| apply Hin].
    unfold C12e.dSigma_dCosT.
    destruct (Rgt_dec (Rabs cosT) 1) as [_ | H]; [lra |].
    intros _. now apply Habs.
  - intros cosT Hout. unfold C12e.dSigma_dCosT.
    destruct (Rgt_dec (Rabs cosT) 1) as [_ | H]; [reflexivity |].
    exfalso. apply Hout. now apply Habs.
  - intros eNu' cosT. reflexivity.
  - assert (pr0 : Riemann_integrable (C12e.dSigma_dCosT eNu) (-1) 1).
    { apply (@Riemann_integrable_ext (fct_cte 0.5) (C12e.dSigma_dCosT eNu) (-1) 1);
        [| apply RiemannInt_P14].
      intros x Hx. rewrite Rmin_left, Rmax_right in Hx by lra.
      unfold fct_cte. symmetry. now apply Hin. }
    exists pr0. intros pr.
    rewrite (RiemannInt_P18 pr (RiemannInt_P14 (-1) 1 0.5)).
    + rewrite RiemannInt_P15. lra.
    + lra.
    + intros x Hx. unfold fct_cte. apply Hin. lra.
Qed.
